(** * PBPU-Emu: the instruction-set simulator of [pbpu.c]

    A shallow embedding of the 4-bit PBPU machine: the nibble-addressed
    memory ([WriteNibble], [ReadNibble]), the register mask ([LimitRegs]),
    the fetch/decode/execute cycle ([SimStep]) and the program loader at the
    start of [main].

    C objects of type [uint8_t] are integers of [Z]; every store into such an
    object goes through [u8], the reduction modulo 256 that the conversion to
    [uint8_t] performs.  Arrays are lists, read with [!!!] and updated with
    [<[_:=_]>]; every index the program computes is within bounds for a
    well-formed machine (see [wf]). *)

From Stdlib Require Import ZArith Lia Bool String.
From stdpp Require Import base list.

Local Open Scope Z_scope.

(** ** C integer conversions *)

(** Conversion to [uint8_t]. *)
Definition u8 (z : Z) : Z := z mod 256.

(** [(uint8_t)b] for a [bool]. *)
Definition bool_to_u8 (b : bool) : Z := if b then 1 else 0.

(** Conversion of an integer to [bool]: anything but zero is [true]. *)
Definition to_bool (z : Z) : bool := negb (z =? 0).

(** The values a [uint8_t] object can hold. *)
Definition is_u8 (z : Z) : Prop := 0 <= z < 256.

(** [buff[i]] *)
Definition index (buff : list Z) (i : Z) : Z := buff !!! Z.to_nat i.

(** [buff[i] = v] *)
Definition store (buff : list Z) (i : Z) (v : Z) : list Z :=
  <[Z.to_nat i := u8 v]> buff.

(** ** Machine state: the globals of [pbpu.c] *)

Record Machine : Type := mkMachine {
  rom : list Z;        (* uint8_t rom[256] *)
  ram : list Z;        (* uint8_t ram[128] *)
  pcPtr : Z;           (* uint8_t *)
  tmpPcPtr : Z;        (* uint8_t *)
  locPtr : Z;          (* uint8_t *)
  regX : Z;            (* uint8_t *)
  regY : Z;            (* uint8_t *)
  regZ : Z;            (* uint8_t *)
  useCarry : bool;
  carry : bool;
  ramDirty : bool;
  regsDirty : bool;
  screenDirty : bool
}.

Definition set_ram (v : list Z) (m : Machine) : Machine :=
  mkMachine (rom m) v (pcPtr m) (tmpPcPtr m) (locPtr m) (regX m) (regY m)
            (regZ m) (useCarry m) (carry m) (ramDirty m) (regsDirty m)
            (screenDirty m).
Definition set_pcPtr (v : Z) (m : Machine) : Machine :=
  mkMachine (rom m) (ram m) (u8 v) (tmpPcPtr m) (locPtr m) (regX m) (regY m)
            (regZ m) (useCarry m) (carry m) (ramDirty m) (regsDirty m)
            (screenDirty m).
Definition set_tmpPcPtr (v : Z) (m : Machine) : Machine :=
  mkMachine (rom m) (ram m) (pcPtr m) (u8 v) (locPtr m) (regX m) (regY m)
            (regZ m) (useCarry m) (carry m) (ramDirty m) (regsDirty m)
            (screenDirty m).
Definition set_locPtr (v : Z) (m : Machine) : Machine :=
  mkMachine (rom m) (ram m) (pcPtr m) (tmpPcPtr m) (u8 v) (regX m) (regY m)
            (regZ m) (useCarry m) (carry m) (ramDirty m) (regsDirty m)
            (screenDirty m).
Definition set_regX (v : Z) (m : Machine) : Machine :=
  mkMachine (rom m) (ram m) (pcPtr m) (tmpPcPtr m) (locPtr m) (u8 v) (regY m)
            (regZ m) (useCarry m) (carry m) (ramDirty m) (regsDirty m)
            (screenDirty m).
Definition set_regY (v : Z) (m : Machine) : Machine :=
  mkMachine (rom m) (ram m) (pcPtr m) (tmpPcPtr m) (locPtr m) (regX m) (u8 v)
            (regZ m) (useCarry m) (carry m) (ramDirty m) (regsDirty m)
            (screenDirty m).
Definition set_regZ (v : Z) (m : Machine) : Machine :=
  mkMachine (rom m) (ram m) (pcPtr m) (tmpPcPtr m) (locPtr m) (regX m) (regY m)
            (u8 v) (useCarry m) (carry m) (ramDirty m) (regsDirty m)
            (screenDirty m).
Definition set_useCarry (v : bool) (m : Machine) : Machine :=
  mkMachine (rom m) (ram m) (pcPtr m) (tmpPcPtr m) (locPtr m) (regX m) (regY m)
            (regZ m) v (carry m) (ramDirty m) (regsDirty m) (screenDirty m).
Definition set_carry (v : bool) (m : Machine) : Machine :=
  mkMachine (rom m) (ram m) (pcPtr m) (tmpPcPtr m) (locPtr m) (regX m) (regY m)
            (regZ m) (useCarry m) v (ramDirty m) (regsDirty m) (screenDirty m).
Definition set_ramDirty (v : bool) (m : Machine) : Machine :=
  mkMachine (rom m) (ram m) (pcPtr m) (tmpPcPtr m) (locPtr m) (regX m) (regY m)
            (regZ m) (useCarry m) (carry m) v (regsDirty m) (screenDirty m).
Definition set_regsDirty (v : bool) (m : Machine) : Machine :=
  mkMachine (rom m) (ram m) (pcPtr m) (tmpPcPtr m) (locPtr m) (regX m) (regY m)
            (regZ m) (useCarry m) (carry m) (ramDirty m) v (screenDirty m).
Definition set_screenDirty (v : bool) (m : Machine) : Machine :=
  mkMachine (rom m) (ram m) (pcPtr m) (tmpPcPtr m) (locPtr m) (regX m) (regY m)
            (regZ m) (useCarry m) (carry m) (ramDirty m) (regsDirty m) v.

(** Statement sequencing: [m |> f |> g] runs [f] on [m], then [g]. *)
Notation "m |> f" := (f m) (at level 61, left associativity, only parsing).

(** ** Opcodes *)

Inductive Opcodes : Type :=
  | OP_NOP | OP_ADD | OP_SUB | OP_WT1 | OP_WT2 | OP_WTX | OP_WTY | OP_WTZ
  | OP_ZTR | OP_RTZ | OP_PC1 | OP_PC2 | OP_JMP | OP_RTX | OP_RTY | OP_USC.

(** The enumeration constants, numbered from zero in declaration order. *)
Definition Opcodes_value (o : Opcodes) : Z :=
  match o with
  | OP_NOP => 0 | OP_ADD => 1 | OP_SUB => 2 | OP_WT1 => 3
  | OP_WT2 => 4 | OP_WTX => 5 | OP_WTY => 6 | OP_WTZ => 7
  | OP_ZTR => 8 | OP_RTZ => 9 | OP_PC1 => 10 | OP_PC2 => 11
  | OP_JMP => 12 | OP_RTX => 13 | OP_RTY => 14 | OP_USC => 15
  end.

(** [switch (op)]: the case label that [op] selects, if any. *)
Definition switch (op : Z) : option Opcodes :=
  match op with
  | 0 => Some OP_NOP | 1 => Some OP_ADD | 2 => Some OP_SUB | 3 => Some OP_WT1
  | 4 => Some OP_WT2 | 5 => Some OP_WTX | 6 => Some OP_WTY | 7 => Some OP_WTZ
  | 8 => Some OP_ZTR | 9 => Some OP_RTZ | 10 => Some OP_PC1 | 11 => Some OP_PC2
  | 12 => Some OP_JMP | 13 => Some OP_RTX | 14 => Some OP_RTY | 15 => Some OP_USC
  | _ => None
  end.

(** ** Memory subsystem *)

(** [WriteNibble(buff, addr, val)]; [addr] and [val] are [uint8_t]. *)
Definition WriteNibble (buff : list Z) (addr val : Z) : list Z :=
  if addr mod 2 =? 0
  then store buff (addr / 2)
         (Z.lor (Z.land (index buff (addr / 2)) 0xF0) (Z.land val 0x0F))
  else store buff (addr / 2)
         (Z.lor (Z.land (index buff (addr / 2)) 0x0F)
                (Z.shiftl (Z.land val 0x0F) 4)).

(** [ReadNibble(buff, addr)]; [addr] is [uint8_t], and so is the result. *)
Definition ReadNibble (buff : list Z) (addr : Z) : Z :=
  if addr mod 2 =? 0
  then u8 (Z.land (index buff (addr / 2)) 0x0F)
  else u8 (Z.land (Z.shiftr (index buff (addr / 2)) 4) 0x0F).

(** ** Execution engine *)

(** [LimitRegs()] *)
Definition LimitRegs (m : Machine) : Machine :=
  m |> (fun m => set_regX (Z.land (regX m) 0xF) m)
    |> (fun m => set_regY (Z.land (regY m) 0xF) m)
    |> (fun m => set_regZ (Z.land (regZ m) 0xF) m).

(** The body of one [case] of the [switch] in [SimStep]. *)
Definition exec (o : Opcodes) (imm : Z) (m : Machine) : Machine :=
  match o with
  | OP_NOP => m
  | OP_ADD =>
      m |> (fun m => set_regZ (regX m + regY m
                               + (if useCarry m then bool_to_u8 (carry m) else 0)) m)
        |> (fun m => set_carry (to_bool (Z.land (Z.shiftr (regZ m) 4) 0x1)) m)
        |> set_regsDirty true
  | OP_SUB =>
      let subTmp := u8 (regY m + (if useCarry m then bool_to_u8 (carry m) else 0)) in
      m |> (fun m => set_regZ (regX m - subTmp) m)
        |> (fun m => set_carry (regX m >=? subTmp) m)
        |> set_regsDirty true
  | OP_WT1 =>
      m |> (fun m => set_locPtr (Z.lor (Z.land (locPtr m) 0x0F) (Z.shiftl imm 4)) m)
        |> set_regsDirty true
  | OP_WT2 =>
      m |> (fun m => set_locPtr (Z.lor (Z.land (locPtr m) 0xF0) imm) m)
        |> set_regsDirty true
  | OP_WTX => m |> set_regX imm |> set_regsDirty true
  | OP_WTY => m |> set_regY imm |> set_regsDirty true
  | OP_WTZ => m |> set_regZ imm |> set_regsDirty true
  | OP_ZTR =>
      m |> (fun m => set_ram (WriteNibble (ram m) (locPtr m) (regZ m)) m)
        |> (fun m => set_screenDirty (locPtr m <? 4) m)
        |> set_ramDirty true
  | OP_RTZ =>
      m |> (fun m => set_regZ (ReadNibble (ram m) (locPtr m)) m)
        |> set_regsDirty true
  | OP_PC1 =>
      m |> (fun m => set_tmpPcPtr (Z.lor (Z.land (tmpPcPtr m) 0xF0) imm) m)
        |> set_regsDirty true
  | OP_PC2 =>
      m |> (fun m => set_tmpPcPtr (Z.lor (Z.land (tmpPcPtr m) 0x0F) (Z.shiftl imm 4)) m)
        |> set_regsDirty true
  | OP_JMP =>
      m |> (fun m => set_tmpPcPtr (tmpPcPtr m - 1) m)
        |> (fun m => set_pcPtr (tmpPcPtr m) m)
  | OP_RTX =>
      m |> (fun m => set_regX (ReadNibble (ram m) (locPtr m)) m)
        |> set_regsDirty true
  | OP_RTY =>
      m |> (fun m => set_regY (ReadNibble (ram m) (locPtr m)) m)
        |> set_regsDirty true
  | OP_USC => m |> (fun m => set_useCarry (negb (useCarry m)) m)
  end.

(** [uint8_t op = rom[pcPtr] >> 4;] *)
Definition fetch_op (m : Machine) : Z :=
  u8 (Z.shiftr (index (rom m) (pcPtr m)) 4).

(** [uint8_t imm = rom[pcPtr] & 0xF;] *)
Definition fetch_imm (m : Machine) : Z :=
  u8 (Z.land (index (rom m) (pcPtr m)) 0xF).

(** [SimStep()]: the [switch], then [LimitRegs()], then [pcPtr++]. *)
Definition SimStep (m : Machine) : Machine :=
  let op := fetch_op m in
  let imm := fetch_imm m in
  (match switch op with
   | Some o => exec o imm m
   | None => m
   end)
  |> LimitRegs
  |> (fun m => set_pcPtr (pcPtr m + 1) m).

(** [n] calls of [SimStep], as the driver loop of [main] makes them. *)
Fixpoint run (n : nat) (m : Machine) : Machine :=
  match n with
  | O => m
  | S n' => run n' (SimStep m)
  end.

(** ** The 4x4 screen *)

(** The loop counter [row] of [UpdateScreen] runs over [0 .. 4*2-1]; the
    nibble it draws on that row is [ReadNibble(ram, row/2)]. *)
Definition screen_rows : list Z := seqZ 0 (4 * 2).

Definition screen_addr (row : Z) : Z := u8 (row / 2).

(** The four cells of one row: [(rowVal >> (3 - col)) & 0x1] for
    [col = 0 .. 3]; [true] is drawn as "####", [false] as four blanks. *)
Definition screen_cells (rowVal : Z) : list bool :=
  (fun col => to_bool (Z.land (Z.shiftr rowVal (3 - col)) 0x1)) <$> seqZ 0 4.

(** [UpdateScreen(win)], as the grid it draws; nothing is drawn when
    [ramDirty] is off. *)
Definition UpdateScreen (m : Machine) : option (list (list bool)) :=
  if negb (ramDirty m) then None
  else Some ((fun row => screen_cells (ReadNibble (ram m) (screen_addr row)))
             <$> screen_rows).

(** ** Program load: the block of [main] that fills [rom] *)

(** Lines written to standard output and not lost.  A line printed sits in
    the buffer of [stdout] until it is flushed: at once when [stdout] is
    line buffered, as it is on a terminal, and otherwise when the buffer
    fills or the process exits.  A process that is killed loses the lines
    still in the buffer. *)
Inductive Output : Type :=
  | Printf (s : string)            (* printf of a constant line *)
  | PrintfRead (readBytes : nat).  (* printf("Read %zu bytes.\n", readBytes) *)

(** How the load block is left. *)
Inductive Outcome : Type :=
  | Return (status : Z)       (* [return status;] from [main] *)
  | Fault                     (* killed by a signal inside the C library *)
  | Loaded (rom : list Z).    (* falls through to [initscr()] *)

(** [fread(buff, sizeof(uint8_t), count, stream)] on a stream whose remaining
    bytes are [stream]: the bytes read overwrite the head of [buff]. *)
Definition fread (buff : list Z) (count : nat) (stream : list Z)
  : list Z * nat :=
  let got := take count stream in
  (got ++ drop (length got) buff, length got).

(** [sizeof(rom)] *)
Definition sizeof_rom : nat := 256.

Section Load.

(** Whether [stdout] is line buffered (a terminal). *)
Variable stdout_line_buffered : bool.

(** The load block, from [fopen] to the last [fclose].  [prgFile] is [None]
    when [fopen] returns [NULL], and otherwise the content of the file.  On
    the [NULL] path the diagnostic is printed, then [fclose(prgFile)] is
    called on the null stream: the C library dereferences the stream and
    the process is killed there, so the [return 1] after it is never
    reached, and the diagnostic reaches the user only when [stdout] is
    line buffered.  On the other paths [fclose] gets an open stream and has
    no effect on the result. *)
Definition load (rom : list Z) (prgFile : option (list Z))
  : list Output * Outcome :=
  match prgFile with
  | None =>
      (if stdout_line_buffered then [Printf "Program not found!"] else [],
       Fault)
  | Some stream =>
      let '(rom, readBytes) := fread rom (sizeof_rom - 1) stream in
      if (readBytes <=? 0)%nat
      then ([PrintfRead readBytes; Printf "Program is empty!"], Return 1)
      else ([PrintfRead readBytes], Loaded rom)
  end.

End Load.

(** The globals before [main] runs: zero unless initialised otherwise. *)
Definition initial : Machine :=
  {| rom := replicate 256 0; ram := replicate 128 0;
     pcPtr := 0; tmpPcPtr := 0; locPtr := 0;
     regX := 0; regY := 0; regZ := 0;
     useCarry := false; carry := false;
     ramDirty := true; regsDirty := true; screenDirty := true |}.

Definition set_rom (v : list Z) (m : Machine) : Machine :=
  mkMachine v (ram m) (pcPtr m) (tmpPcPtr m) (locPtr m) (regX m) (regY m)
            (regZ m) (useCarry m) (carry m) (ramDirty m) (regsDirty m)
            (screenDirty m).

(** ** Well-formed machines *)

(** The ranges that the C types of the globals impose. *)
Record wf (m : Machine) : Prop := mk_wf {
  wf_rom_length : length (rom m) = 256%nat;
  wf_rom : Forall is_u8 (rom m);
  wf_ram_length : length (ram m) = 128%nat;
  wf_ram : Forall is_u8 (ram m);
  wf_pcPtr : is_u8 (pcPtr m);
  wf_tmpPcPtr : is_u8 (tmpPcPtr m);
  wf_locPtr : is_u8 (locPtr m);
  wf_regX : is_u8 (regX m);
  wf_regY : is_u8 (regY m);
  wf_regZ : is_u8 (regZ m)
}.

(** Low and high half of a byte. *)
Definition low_nibble (b : Z) : Z := b mod 16.
Definition high_nibble (b : Z) : Z := (b / 16) mod 16.

(** The opcode that the next [SimStep] executes. *)
Definition fetched (m : Machine) : option Opcodes := switch (fetch_op m).

(** ** Booting and driving a program *)

(** [rom] once [main] has read [prog] into the zero-initialised array. *)
Definition load_rom (prog : list Z) : list Z :=
  (fread (rom initial) (sizeof_rom - 1) prog).1.

(** The machine when the driver loop is entered with [prog] loaded. *)
Definition boot (prog : list Z) : Machine := set_rom (load_rom prog) initial.

(** One iteration of the driver loop of [main]: [SimStep()], then every panel
    whose flag is set is redrawn and its flag cleared. *)
Definition iteration (m : Machine) : Machine :=
  SimStep m
  |> (fun m => if regsDirty m then set_regsDirty false m else m)
  |> (fun m => if screenDirty m then set_screenDirty false m else m)
  |> (fun m => if ramDirty m then set_ramDirty false m else m).

Fixpoint drive (n : nat) (m : Machine) : Machine :=
  match n with
  | O => m
  | S n' => drive n' (iteration m)
  end.

(** Sample programs, one byte per instruction: opcode in the high nibble,
    immediate in the low nibble. *)
Definition prog_jump : list Z := [0xA0; 0xB1; 0xC0].        (* PC1 0; PC2 1; JMP *)
Definition prog_add : list Z := [0x5F; 0x61; 0x10; 0xF0; 0x10]. (* WTX F; WTY 1; ADD; USC; ADD *)
Definition prog_sub : list Z := [0x53; 0x65; 0x20].         (* WTX 3; WTY 5; SUB *)
Definition prog_halves : list Z := [0xA7; 0xB3; 0x39; 0x4C]. (* PC1 7; PC2 3; WT1 9; WT2 C *)
Definition prog_store (loc : Z) : list Z :=                 (* WT2 loc; WTZ F; ZTR *)
  [0x40 + loc; 0x7F; 0x80].

(** Decision procedure for [is_u8]. *)
Definition is_u8b (z : Z) : bool := (0 <=? z) && (z <? 256).

(** The six registers of the machine. *)
Definition registers (m : Machine) : Z * Z * Z * Z * Z * Z :=
  (regX m, regY m, regZ m, locPtr m, tmpPcPtr m, pcPtr m).

(** The nibble addresses that [UpdateScreen] reads. *)
Definition screen_addrs : list Z := screen_addr <$> screen_rows.

(** The diagnostics that tell the two load errors apart. *)
Definition ProgramNotFound : Output := Printf "Program not found!".
Definition ProgramEmpty : Output := Printf "Program is empty!".

(** ** What execution works on *)

(** Everything of the machine but the three dirty flags. *)
Definition core (m : Machine)
  : list Z * list Z * (Z * Z * Z * Z * Z * Z) * bool * bool :=
  (rom m, ram m, registers m, useCarry m, carry m).

(** More sample programs. *)
Definition prog_store_load : list Z :=   (* WT2 2; WTZ B; ZTR; RTX; RTY; WTZ 0; RTZ *)
  [0x42; 0x7B; 0x80; 0xD0; 0xE0; 0x70; 0x90].
Definition prog_jump' : list Z := [0xB1; 0xA0; 0xC0].   (* PC2 1; PC1 0; JMP *)

(** ** Disassembly *)

(** The strings that [DecodeOpCode] returns, case by case. *)
Definition mnemonic (o : Opcodes) : string :=
  match o with
  | OP_NOP => "NOP" | OP_ADD => "ADD" | OP_SUB => "SUB" | OP_WT1 => "WT1"
  | OP_WT2 => "WT2" | OP_WTX => "WTX" | OP_WTY => "WTY" | OP_WTZ => "WTZ"
  | OP_ZTR => "ZTR" | OP_RTZ => "RTZ" | OP_PC1 => "PC1" | OP_PC2 => "PC2"
  | OP_JMP => "JMP" | OP_RTX => "RTX" | OP_RTY => "RTY" | OP_USC => "USC"
  end%string.

(** [DecodeOpCode(buff, addr)]: [op = (buff[addr] & 0xF0) >> 4], then the
    [switch]; "ERR" is the return after it. *)
Definition DecodeOpCode (buff : list Z) (addr : Z) : string :=
  let op := u8 (Z.shiftr (Z.land (index buff addr) 0xF0) 4) in
  match switch op with
  | Some o => mnemonic o
  | None => "ERR"%string
  end.

(** One [mvwprintw(win, line, col, "%02X:  %s %01X", addr, op, imm)] of
    [UpdateDisassembly]. *)
Record DisLine : Type := mkDisLine {
  dis_line : Z;
  dis_col : Z;
  dis_addr : Z;
  dis_op : string;
  dis_imm : Z
}.

(** [UpdateDisassembly(win)] for a window of [y] lines, as the list of the
    instruction lines it prints, in the order of the loop.  The divisions
    are those of [int], which truncate. *)
Definition UpdateDisassembly (y : Z) (m : Machine) : list DisLine :=
  let cursor_row := Z.quot y 2 in
  let half_lines := Z.quot (y - 2) 2 in
  mjoin
    ((fun offset =>
        let line := cursor_row + offset in
        if (line <=? 0) || (line >=? y - 1) then []
        else
          let addr := pcPtr m + offset in
          if (addr <? 0) || (addr >=? Z.of_nat sizeof_rom) then []
          else [mkDisLine line (if pcPtr m =? addr then 3 else 2) addr
                          (DecodeOpCode (rom m) addr)
                          (Z.land (index (rom m) addr) 0xF)])
       <$> seqZ (- half_lines) (half_lines - (- half_lines) + 1)).

(** Where [UpdateDisassembly] draws the cursor: [mvwaddch(win, cursor_row, 1, '>')]. *)
Definition cursor_row (y : Z) : Z := Z.quot y 2.

(** ** Command line: the start of [main] *)

(** [stepMode] and [delayTime]. *)
Record Options : Type := mkOptions {
  stepMode : bool;
  delayTime : Z
}.

(** The initial values of the two globals. *)
Definition default_options : Options :=
  {| stepMode := false; delayTime := 100000 |}.

(** The four lines printed for [--help]. *)
Definition usage : list Output :=
  [Printf "pbpu <file> [options]"; Printf "--help: Print help info";
   Printf "--step: Single step mode"; Printf "--delay=<num>: Delay in microseconds"].

(** [strncmp(arg, "--delay=", 8) == 0] *)
Definition is_delay (arg : string) : bool := String.prefix "--delay=" arg.

(** [arg + 8], for an [arg] of at least 8 characters. *)
Definition skip_8 (arg : string) : string :=
  String.substring 8 (String.length arg - 8) arg.

(** How the start of [main] ends: with an exit status, killed inside the C
    library, or at [initscr()] with the program in [rom] and the options
    set. *)
Inductive Start : Type :=
  | Exited (status : Z)
  | Faulted
  | Started (rom : list Z) (o : Options).

Section Main.

(** [sscanf(s, "%d", &v)]: [Some v] when it returns 1 and stores [v],
    [None] when no integer is converted. *)
Variable sscanf_d : string -> option Z.

(** Whether [stdout] is line buffered (a terminal). *)
Variable stdout_line_buffered : bool.

(** The loop over [argv[1 .. argc-1]]: the lines printed, and either the
    status [main] returns from inside the loop or the options when the loop
    ends. *)
Fixpoint parse_args (args : list string) (o : Options)
  : list Output * (Z + Options) :=
  match args with
  | [] => ([], inr o)
  | arg :: rest =>
      if String.eqb arg "--help" then (usage, inl 0)
      else
        let o := if String.eqb arg "--step"
                 then mkOptions true (delayTime o) else o in
        if is_delay arg then
          match sscanf_d (skip_8 arg) with
          | None => ([Printf "Invalid delay value!"], inl 1)
          | Some v =>
              let o := mkOptions (stepMode o) v in
              if delayTime o <? 0
              then ([Printf "Delay can't be negative!"], inl 1)
              else parse_args rest o
          end
        else parse_args rest o
  end.

(** [main] up to the end of the load block.  [argv] is the whole argument
    vector, the program name first; [fopen path] is the content of the file
    at [path], or [None] when it cannot be opened. *)
Definition main_start (argv : list string) (fopen : string -> option (list Z))
  : list Output * Start :=
  match parse_args (tail argv) default_options with
  | (out, inl status) => (out, Exited status)
  | (out, inr o) =>
      if (length argv <? 2)%nat
      then (out ++ [Printf "No program passed in!"], Exited 1)
      else
        match load stdout_line_buffered (rom initial)
                   (fopen (nth 1 argv ""%string)) with
        | (out', Return status) => (out ++ out', Exited status)
        | (out', Fault) => (out ++ out', Faulted)
        | (out', Loaded rom) => (out ++ out', Started rom o)
        end
  end.

End Main.

(** A sample environment: every [sscanf] converts to 250, and one file
    exists. *)
Definition sample_sscanf (s : string) : option Z := Some 250.
Definition sample_fopen (path : string) : option (list Z) :=
  if String.eqb path "prog.bin" then Some prog_add else None.

(** ** The memory panel *)

(** The number of digits that the conversion [%X] prints for [v >= 0]. *)
Definition hex_digits (v : Z) : Z := 1 + Z.log2 v / 4.

(** The number of characters of ["%02X: "] printed for [addr], and of
    ["%01X "] printed for [v]: the digits, padded to the width given, and
    the characters after them. *)
Definition label_width (addr : Z) : Z := Z.max 2 (hex_digits addr) + 2.
Definition cell_width (v : Z) : Z := Z.max 1 (hex_digits v) + 1.

(** One nibble on the panel: where it is printed and what is printed. *)
Record Cell : Type := mkCell {
  cell_y : Z;
  cell_x : Z;
  cell_val : Z
}.

Definition bytes_per_row : Z := 16.
Definition max_bytes : Z := 0x100.

(** [UpdateMemory(win)]: one [mvwprintw] at a computed place. *)
Definition UpdateMemory (m : Machine) : Cell :=
  mkCell (2 + locPtr m / bytes_per_row)
         (5 + (locPtr m mod bytes_per_row) * 2)
         (ReadNibble (ram m) (locPtr m)).

(** The first loop of [InitMemory]: the column labels on line 1,
    [mvwprintw(win, 1, 5+(i*2), "%01X ", i)]. *)
Definition InitMemory_header : list Cell :=
  (fun i => mkCell 1 (5 + i * 2) i) <$> seqZ 0 bytes_per_row.

(** The inner loop of [InitMemory]: the [wprintw] calls of one row, each
    printing where the one before left the cursor.  The value printed is
    [ReadNibble(ram, addr)], with [addr] the address of the row. *)
Fixpoint InitMemory_cells (ram : list Z) (y addr : Z) (cols : list Z) (x : Z)
  : list Cell :=
  match cols with
  | [] => []
  | col :: cols' =>
      let index := addr + col in
      if index >=? max_bytes then []
      else
        let v := ReadNibble ram (u8 addr) in
        mkCell y x v :: InitMemory_cells ram y addr cols' (x + cell_width v)
  end.

(** The outer loop of [InitMemory] for a window of [h] lines: row by row,
    the cells printed after the label ["%02X: "] at column 1. *)
Fixpoint InitMemory_rows (ram : list Z) (rows : list Z) : list (list Cell) :=
  match rows with
  | [] => []
  | row :: rows' =>
      let addr := row * bytes_per_row in
      if addr >=? max_bytes then []
      else InitMemory_cells ram (row + 2) addr (seqZ 0 bytes_per_row)
                            (1 + label_width addr)
           :: InitMemory_rows ram rows'
  end.

Definition InitMemory (h : Z) (ram : list Z) : list (list Cell) :=
  InitMemory_rows ram (seqZ 0 (h - 2)).

(** * Properties *)

(** ** Bytes and nibbles *)

Lemma u8_is_u8 z : is_u8 (u8 z).
Proof. unfold is_u8, u8. apply Z.mod_pos_bound. lia. Qed.

Lemma is_u8b_sound z : is_u8b z = true -> is_u8 z.
Proof. unfold is_u8b, is_u8. rewrite andb_true_iff. lia. Qed.

Lemma u8_id z : is_u8 z -> u8 z = z.
Proof. unfold is_u8, u8. intros H. now apply Z.mod_small. Qed.

Lemma land_0F z : Z.land z 0x0F = low_nibble z.
Proof. unfold low_nibble. change 0x0F with (Z.ones 4). now rewrite Z.land_ones. Qed.

Lemma shiftr_4 z : Z.shiftr z 4 = z / 16.
Proof. now rewrite Z.shiftr_div_pow2. Qed.

Lemma shiftl_4 z : Z.shiftl z 4 = 16 * z.
Proof. rewrite Z.shiftl_mul_pow2 by lia. change (2 ^ 4) with 16. lia. Qed.

Lemma land_01 z : Z.land z 0x1 = z mod 2.
Proof. change 0x1 with (Z.ones 1). now rewrite Z.land_ones. Qed.

Lemma nibble_testbit_high l n : 0 <= l < 16 -> 4 <= n -> Z.testbit l n = false.
Proof.
  intros Hl Hn. rewrite <- (Z.mod_small l (2 ^ 4)) by (change (2 ^ 4) with 16; lia).
  apply Z.mod_pow2_bits_high. lia.
Qed.

(** A multiple of 16 and a nibble share no bit, so or-ing them adds them. *)
Lemma lor_nibbles h l : 0 <= l < 16 -> Z.lor (16 * h) l = 16 * h + l.
Proof.
  intros Hl.
  assert (Hdisj : Z.land (16 * h) l = 0).
  { apply Z.bits_inj'. intros n Hn. rewrite Z.land_spec, Z.bits_0.
    destruct (Z.lt_ge_cases n 4) as [Hlt | Hge].
    - replace (16 * h) with (h * 2 ^ 4) by (change (2 ^ 4) with 16; lia).
      rewrite Z.mul_pow2_bits_low by lia. reflexivity.
    - rewrite (nibble_testbit_high l n) by lia. apply andb_false_r. }
  rewrite <- Z.lxor_lor by exact Hdisj.
  symmetry. now apply Z.add_nocarry_lxor.
Qed.

Lemma lor_nibbles' h l : 0 <= l < 16 -> Z.lor l (16 * h) = 16 * h + l.
Proof. intros Hl. rewrite Z.lor_comm. now apply lor_nibbles. Qed.

(** [z & 0xF0] keeps bits 4 to 7. *)
Lemma land_F0 z : Z.land z 0xF0 = 16 * high_nibble z.
Proof.
  unfold high_nibble. change ((z / 16) mod 16) with (low_nibble (z / 16)).
  rewrite <- land_0F, <- shiftr_4, <- shiftl_4.
  rewrite Z.shiftl_land. change (Z.shiftl 0x0F 4) with 0xF0.
  apply Z.bits_inj'. intros n Hn. rewrite !Z.land_spec.
  destruct (Z.lt_ge_cases n 4) as [Hlt | Hge].
  - change 0xF0 with (15 * 2 ^ 4). rewrite Z.mul_pow2_bits_low by lia.
    now rewrite !andb_false_r.
  - rewrite Z.shiftl_spec by lia. rewrite Z.shiftr_spec by lia.
    now replace (n - 4 + 4) with n by lia.
Qed.

Lemma low_nibble_range z : 0 <= low_nibble z < 16.
Proof. unfold low_nibble. apply Z.mod_pos_bound. lia. Qed.

Lemma high_nibble_range z : 0 <= high_nibble z < 16.
Proof. unfold high_nibble. apply Z.mod_pos_bound. lia. Qed.

Lemma byte_nibbles b : is_u8 b -> b = 16 * high_nibble b + low_nibble b.
Proof.
  unfold is_u8, high_nibble, low_nibble. intros Hb.
  rewrite (Z.mod_small (b / 16)) by (split; [apply Z.div_pos | apply Z.div_lt_upper_bound]; lia).
  apply Z.div_mod. lia.
Qed.

Lemma nibbles_is_u8 h l : 0 <= h < 16 -> 0 <= l < 16 -> is_u8 (16 * h + l).
Proof. unfold is_u8. lia. Qed.

Lemma low_nibble_join h l : 0 <= l < 16 -> low_nibble (16 * h + l) = l.
Proof.
  intros Hl. unfold low_nibble.
  rewrite Z.add_comm, Z.mul_comm, Z.mod_add by lia. now apply Z.mod_small.
Qed.

Lemma high_nibble_join h l :
  0 <= h < 16 -> 0 <= l < 16 -> high_nibble (16 * h + l) = h.
Proof.
  intros Hh Hl. unfold high_nibble.
  rewrite Z.add_comm, Z.mul_comm, Z.div_add by lia.
  rewrite (Z.div_small l) by lia. now apply Z.mod_small.
Qed.

Lemma nibble_is_u8 z : 0 <= z < 16 -> is_u8 z.
Proof. unfold is_u8. lia. Qed.

(** ** Arrays *)

Lemma index_store_eq buff i v :
  0 <= i -> (Z.to_nat i < length buff)%nat -> index (store buff i v) i = u8 v.
Proof.
  intros Hi Hlen. unfold index, store.
  now rewrite list_lookup_total_insert_eq.
Qed.

Lemma index_store_ne buff i j v :
  0 <= i -> 0 <= j -> i <> j -> index (store buff i v) j = index buff j.
Proof.
  intros Hi Hj Hij. unfold index, store.
  apply list_lookup_total_insert_ne. lia.
Qed.

Lemma length_store buff i v : length (store buff i v) = length buff.
Proof. apply length_insert. Qed.

Lemma Forall_store buff i v : Forall is_u8 buff -> Forall is_u8 (store buff i v).
Proof.
  intros Hb. unfold store.
  destruct (decide (Z.to_nat i < length buff)%nat) as [Hlt | Hge].
  - apply Forall_insert; [exact Hb | apply u8_is_u8].
  - rewrite list_insert_ge by lia. exact Hb.
Qed.

Lemma index_is_u8 buff i :
  Forall is_u8 buff -> (Z.to_nat i < length buff)%nat -> is_u8 (index buff i).
Proof.
  intros Hb Hlen. unfold index.
  apply (Forall_lookup_total_1 is_u8 buff); assumption.
Qed.

(** An 8-bit nibble address never leaves a 128-byte buffer. *)
Lemma addr_in_bounds (buff : list Z) addr :
  length buff = 128%nat -> is_u8 addr ->
  0 <= addr / 2 /\ (Z.to_nat (addr / 2) < length buff)%nat.
Proof.
  unfold is_u8. intros Hlen Ha.
  assert (0 <= addr / 2 < 128) by (split; [apply Z.div_pos | apply Z.div_lt_upper_bound]; lia).
  lia.
Qed.

(** ** Memory subsystem *)

Lemma ReadNibble_even buff addr :
  addr mod 2 = 0 -> ReadNibble buff addr = low_nibble (index buff (addr / 2)).
Proof.
  intros He. unfold ReadNibble. rewrite He. cbn [Z.eqb].
  rewrite land_0F. apply u8_id, nibble_is_u8, low_nibble_range.
Qed.

Lemma ReadNibble_odd buff addr :
  addr mod 2 <> 0 -> ReadNibble buff addr = high_nibble (index buff (addr / 2)).
Proof.
  intros Ho. unfold ReadNibble. apply Z.eqb_neq in Ho. rewrite Ho.
  rewrite land_0F, shiftr_4. apply u8_id, nibble_is_u8, low_nibble_range.
Qed.

Lemma ReadNibble_range buff addr : 0 <= ReadNibble buff addr < 16.
Proof.
  destruct (Z.eq_dec (addr mod 2) 0) as [He | Ho].
  - rewrite ReadNibble_even by exact He. apply low_nibble_range.
  - rewrite ReadNibble_odd by exact Ho. apply high_nibble_range.
Qed.

(** The byte that [WriteNibble] leaves at index [addr/2]. *)
Lemma WriteNibble_byte buff addr val :
  0 <= addr / 2 -> (Z.to_nat (addr / 2) < length buff)%nat ->
  index (WriteNibble buff addr val) (addr / 2) =
  if addr mod 2 =? 0
  then 16 * high_nibble (index buff (addr / 2)) + low_nibble val
  else 16 * low_nibble val + low_nibble (index buff (addr / 2)).
Proof.
  intros Hi Hlen. unfold WriteNibble.
  destruct (addr mod 2 =? 0); rewrite index_store_eq by assumption.
  - rewrite land_F0, land_0F, lor_nibbles by apply low_nibble_range.
    apply u8_id, nibbles_is_u8; [apply high_nibble_range | apply low_nibble_range].
  - rewrite !land_0F, shiftl_4, lor_nibbles' by apply low_nibble_range.
    apply u8_id, nibbles_is_u8; apply low_nibble_range.
Qed.

(** Every other byte of the buffer is left alone. *)
Lemma WriteNibble_other_byte buff addr val j :
  0 <= addr / 2 -> 0 <= j -> j <> addr / 2 ->
  index (WriteNibble buff addr val) j = index buff j.
Proof.
  intros Hi Hj Hne. unfold WriteNibble.
  destruct (addr mod 2 =? 0); apply index_store_ne; lia.
Qed.

Lemma length_WriteNibble buff addr val :
  length (WriteNibble buff addr val) = length buff.
Proof. unfold WriteNibble. destruct (addr mod 2 =? 0); apply length_store. Qed.

Lemma Forall_WriteNibble buff addr val :
  Forall is_u8 buff -> Forall is_u8 (WriteNibble buff addr val).
Proof.
  intros Hb. unfold WriteNibble.
  destruct (addr mod 2 =? 0); now apply Forall_store.
Qed.

(** C5. Nibble round trip: in a 128-byte buffer, for an address [a] in
    0..255 and a value [v] in 0..15, reading back the nibble just written
    gives [v]; the other nibble of the byte at index [a/2] is what it was
    before the write; and [ReadNibble] takes the low nibble of [buf[a/2]]
    when [a] is even and the high nibble when [a] is odd. *)
Theorem nibble_round_trip (buf : list Z) (a v : Z) :
  length buf = 128%nat -> 0 <= a <= 255 -> 0 <= v <= 15 ->
  ReadNibble (WriteNibble buf a v) a = v
  /\ (if a mod 2 =? 0
      then high_nibble (index (WriteNibble buf a v) (a / 2))
           = high_nibble (index buf (a / 2))
      else low_nibble (index (WriteNibble buf a v) (a / 2))
           = low_nibble (index buf (a / 2)))
  /\ ReadNibble buf a
     = if a mod 2 =? 0
       then low_nibble (index buf (a / 2))
       else high_nibble (index buf (a / 2)).
Proof.
  intros Hlen Ha Hv.
  assert (Hau : is_u8 a) by (unfold is_u8; lia).
  destruct (addr_in_bounds buf a Hlen Hau) as [Hi Hin].
  assert (Hlow : low_nibble v = v) by (unfold low_nibble; apply Z.mod_small; lia).
  pose proof (WriteNibble_byte buf a v Hi Hin) as Hbyte.
  pose proof (high_nibble_range (index buf (a / 2))) as Hh.
  pose proof (low_nibble_range (index buf (a / 2))) as Hl.
  destruct (a mod 2 =? 0) eqn:Hpar.
  - apply Z.eqb_eq in Hpar. rewrite Hlow in Hbyte.
    repeat split.
    + rewrite ReadNibble_even, Hbyte by exact Hpar. apply low_nibble_join. lia.
    + rewrite Hbyte. apply high_nibble_join; lia.
    + now apply ReadNibble_even.
  - apply Z.eqb_neq in Hpar. rewrite Hlow in Hbyte.
    repeat split.
    + rewrite ReadNibble_odd, Hbyte by exact Hpar. apply high_nibble_join; lia.
    + rewrite Hbyte. apply low_nibble_join. lia.
    + now apply ReadNibble_odd.
Qed.

(** ** One step *)

Lemma SimStep_fetched m o :
  fetched m = Some o ->
  SimStep m =
  (exec o (fetch_imm m) m |> LimitRegs |> (fun m => set_pcPtr (pcPtr m + 1) m)).
Proof. unfold fetched, SimStep. now intros ->. Qed.

(** Reading a global after a chain of assignments. *)
Ltac globals :=
  cbn [exec LimitRegs
       set_rom set_ram set_pcPtr set_tmpPcPtr set_locPtr set_regX set_regY
       set_regZ set_useCarry set_carry set_ramDirty set_regsDirty
       set_screenDirty
       rom ram pcPtr tmpPcPtr locPtr regX regY regZ useCarry carry ramDirty
       regsDirty screenDirty].

Ltac step_with H := rewrite (SimStep_fetched _ _ H); globals.

Lemma fetch_imm_range m : 0 <= fetch_imm m < 16.
Proof.
  unfold fetch_imm. change 0xF with 0x0F. rewrite land_0F.
  rewrite u8_id by apply nibble_is_u8, low_nibble_range.
  apply low_nibble_range.
Qed.

Lemma mask_range z : 0 <= u8 (Z.land z 0xF) <= 15.
Proof.
  change 0xF with 0x0F. rewrite land_0F.
  rewrite u8_id by apply nibble_is_u8, low_nibble_range.
  pose proof (low_nibble_range z). lia.
Qed.

Lemma mask_low_nibble z : u8 (Z.land z 0xF) = low_nibble z.
Proof.
  change 0xF with 0x0F. rewrite land_0F.
  apply u8_id, nibble_is_u8, low_nibble_range.
Qed.

Lemma low_nibble_u8 z : low_nibble (u8 z) = low_nibble z.
Proof.
  unfold low_nibble, u8.
  rewrite (Z.div_mod z 256) at 2 by lia.
  replace (256 * (z / 256) + z mod 256) with (z mod 256 + (16 * (z / 256)) * 16) by lia.
  now rewrite Z.mod_add by lia.
Qed.

Lemma LimitRegs_regs m :
  regX (LimitRegs m) = low_nibble (regX m)
  /\ regY (LimitRegs m) = low_nibble (regY m)
  /\ regZ (LimitRegs m) = low_nibble (regZ m).
Proof. globals. now rewrite !mask_low_nibble. Qed.

(** C8. Register masking: whatever the machine state before the step (the
    registers may hold any value) and whatever the opcode, after one
    [SimStep] each of [regX], [regY], [regZ] lies in 0..15. *)
Theorem SimStep_masks_registers (m : Machine) :
  0 <= regX (SimStep m) <= 15
  /\ 0 <= regY (SimStep m) <= 15
  /\ 0 <= regZ (SimStep m) <= 15.
Proof.
  unfold SimStep. globals. repeat split; apply mask_range.
Qed.

(** What the JMP case and the increment after it leave in [tmpPcPtr] and
    [pcPtr], for any register contents. *)
Lemma JMP_step m :
  fetched m = Some OP_JMP ->
  tmpPcPtr (SimStep m) = (tmpPcPtr m - 1) mod 256
  /\ pcPtr (SimStep m) = (tmpPcPtr (SimStep m) + 1) mod 256.
Proof.
  intros Hop. step_with Hop.
  rewrite (u8_id (u8 _)) by apply u8_is_u8. split; reflexivity.
Qed.

(** C1. JMP compensation: one full [SimStep] whose opcode is JMP leaves
    [pcPtr] equal to the value [tmpPcPtr] had before the step, and
    [tmpPcPtr] equal to that value minus one modulo 256.  With
    [tmpPcPtr = 0x10] before the step, [pcPtr] is [0x10] afterwards, neither
    [0x11] nor [0x0F]. *)
Theorem JMP_lands_on_tmpPcPtr (m : Machine) :
  is_u8 (tmpPcPtr m) ->
  fetched m = Some OP_JMP ->
  pcPtr (SimStep m) = tmpPcPtr m
  /\ tmpPcPtr (SimStep m) = (tmpPcPtr m - 1) mod 256
  /\ (tmpPcPtr m = 0x10 ->
      pcPtr (SimStep m) = 0x10 /\ pcPtr (SimStep m) <> 0x11
      /\ pcPtr (SimStep m) <> 0x0F).
Proof.
  intros Htmp Hop. destruct (JMP_step m Hop) as [Hdec Hpc].
  rewrite Hpc, Hdec. unfold is_u8 in Htmp.
  assert (Hback : ((tmpPcPtr m - 1) mod 256 + 1) mod 256 = tmpPcPtr m).
  { rewrite Z.add_mod_idemp_l by lia.
    replace (tmpPcPtr m - 1 + 1) with (tmpPcPtr m) by lia.
    now apply Z.mod_small. }
  rewrite Hback. repeat split; try reflexivity; lia.
Qed.

(** ** Well-formedness is an invariant of [SimStep] *)

Create HintDb pbpu.
#[local] Hint Resolve u8_is_u8 Forall_WriteNibble : pbpu.

Lemma exec_wf o imm m : wf m -> wf (exec o imm m).
Proof.
  intros [Hrl Hr Hal Ha Hpc Htmp Hloc Hx Hy Hz].
  destruct o; constructor; globals;
    rewrite ?length_WriteNibble; auto with pbpu.
Qed.

Lemma LimitRegs_wf m : wf m -> wf (LimitRegs m).
Proof.
  intros [Hrl Hr Hal Ha Hpc Htmp Hloc Hx Hy Hz].
  constructor; globals; auto with pbpu.
Qed.

Lemma SimStep_wf m : wf m -> wf (SimStep m).
Proof.
  intros Hwf. unfold SimStep.
  assert (Hexec : wf (match switch (fetch_op m) with
                      | Some o => exec o (fetch_imm m) m
                      | None => m
                      end))
    by (destruct (switch (fetch_op m)); [now apply exec_wf | exact Hwf]).
  apply LimitRegs_wf in Hexec.
  destruct Hexec as [Hrl Hr Hal Ha Hpc Htmp Hloc Hx Hy Hz].
  constructor; cbn [set_pcPtr rom ram pcPtr tmpPcPtr locPtr regX regY regZ];
    auto with pbpu.
Qed.

Lemma run_wf n m : wf m -> wf (run n m).
Proof.
  revert m. induction n as [| n IH]; intros m Hwf; cbn [run].
  - exact Hwf.
  - apply IH, SimStep_wf, Hwf.
Qed.

(** For a well-formed machine every opcode byte selects a case. *)
Lemma fetched_total m : wf m -> exists o, fetched m = Some o.
Proof.
  intros Hwf. unfold fetched, fetch_op.
  assert (Hb : is_u8 (index (rom m) (pcPtr m))).
  { apply index_is_u8; [apply Hwf |].
    rewrite (wf_rom_length m Hwf). pose proof (wf_pcPtr m Hwf) as Hpc.
    unfold is_u8 in Hpc. lia. }
  rewrite shiftr_4. unfold is_u8 in Hb.
  assert (Hq : 0 <= index (rom m) (pcPtr m) / 16 < 16)
    by (split; [apply Z.div_pos | apply Z.div_lt_upper_bound]; lia).
  rewrite u8_id by (unfold is_u8; lia).
  set (q := index (rom m) (pcPtr m) / 16) in *.
  assert (Hcases : q = 0 \/ q = 1 \/ q = 2 \/ q = 3 \/ q = 4 \/ q = 5 \/ q = 6
                   \/ q = 7 \/ q = 8 \/ q = 9 \/ q = 10 \/ q = 11 \/ q = 12
                   \/ q = 13 \/ q = 14 \/ q = 15) by lia.
  repeat (destruct Hcases as [-> | Hcases]; [eexists; reflexivity |]).
  subst q. rewrite Hcases. eexists; reflexivity.
Qed.

(** ** Arithmetic opcodes *)

Lemma carry_bit z : to_bool (Z.land (Z.shiftr (u8 z) 4) 0x1) = Z.testbit z 4.
Proof.
  rewrite land_01, Zmod_odd. rewrite <- Z.testbit_odd.
  unfold u8. change 256 with (2 ^ 8). rewrite Z.mod_pow2_bits_low by lia.
  unfold to_bool. now destruct (Z.testbit z 4).
Qed.

(** What the ADD case does, for any register contents. *)
Lemma ADD_step m :
  fetched m = Some OP_ADD ->
  let sum := regX m + regY m + (if useCarry m then bool_to_u8 (carry m) else 0) in
  regZ (SimStep m) = sum mod 16 /\ carry (SimStep m) = Z.testbit sum 4.
Proof.
  intros Hop sum. step_with Hop. fold sum. split.
  - rewrite mask_low_nibble. apply low_nibble_u8.
  - apply carry_bit.
Qed.

(** C3. ADD: with [regX] and [regY] in 0..15, an ADD step leaves
    [regZ = (X + Y + (useCarry ? carry : 0)) mod 16] and sets [carry] to
    bit 4 of that sum before truncation.  [X = 0xF], [Y = 0x1] without
    carry use gives [regZ = 0] and [carry = true]; with carry use and
    [carry = true] before, it gives [regZ = 1] and [carry = true]. *)
Theorem ADD_sum_and_carry (m : Machine) :
  0 <= regX m <= 15 -> 0 <= regY m <= 15 ->
  fetched m = Some OP_ADD ->
  regZ (SimStep m)
  = (regX m + regY m + (if useCarry m then bool_to_u8 (carry m) else 0)) mod 16
  /\ carry (SimStep m)
     = Z.testbit (regX m + regY m
                  + (if useCarry m then bool_to_u8 (carry m) else 0)) 4
  /\ (regX m = 0xF -> regY m = 0x1 -> useCarry m = false ->
      regZ (SimStep m) = 0x0 /\ carry (SimStep m) = true)
  /\ (regX m = 0xF -> regY m = 0x1 -> useCarry m = true -> carry m = true ->
      regZ (SimStep m) = 0x1 /\ carry (SimStep m) = true).
Proof.
  intros _ _ Hop. destruct (ADD_step m Hop) as [Hz Hc].
  rewrite Hz, Hc. split; [reflexivity | split; [reflexivity | split]].
  - intros -> -> ->. split; reflexivity.
  - intros -> -> -> ->. split; reflexivity.
Qed.

(** C2. SUB: with 4-bit [regX] and [regY], a SUB step computes
    [s = Y + (useCarry ? carry : 0)], leaves [regZ = (X - s)] truncated to
    4 bits, and sets [carry = (X >= s)]: the flag is the inverse of a
    borrow, set when no borrow is needed. *)
Theorem SUB_borrow_inverse (m : Machine) :
  0 <= regX m <= 15 -> 0 <= regY m <= 15 ->
  fetched m = Some OP_SUB ->
  let s := regY m + (if useCarry m then bool_to_u8 (carry m) else 0) in
  regZ (SimStep m) = (regX m - s) mod 16
  /\ carry (SimStep m) = (regX m >=? s)
  /\ carry (SimStep m) = negb (regX m <? s).
Proof.
  intros _ Hy Hop s. step_with Hop. fold s.
  assert (Hs : u8 s = s).
  { apply u8_id. unfold is_u8, s, bool_to_u8.
    destruct (useCarry m), (carry m); lia. }
  rewrite Hs. repeat split.
  - rewrite mask_low_nibble. apply low_nibble_u8.
  - rewrite Z.geb_leb, Z.ltb_antisym, negb_involutive. reflexivity.
Qed.

(** ** Booting *)

Lemma length_fread buff count stream :
  (count <= length buff)%nat -> length (fread buff count stream).1 = length buff.
Proof.
  intros Hc. unfold fread. cbn [fst].
  rewrite length_app, length_drop, length_take. lia.
Qed.

Lemma Forall_fread buff count stream :
  Forall is_u8 buff -> Forall is_u8 stream ->
  Forall is_u8 (fread buff count stream).1.
Proof.
  intros Hb Hs. unfold fread. cbn [fst].
  apply Forall_app. split; [now apply Forall_take | now apply Forall_drop].
Qed.

Lemma boot_wf prog : Forall is_u8 prog -> wf (boot prog).
Proof.
  intros Hp. unfold boot, load_rom.
  constructor; cbn [set_rom initial rom ram pcPtr tmpPcPtr locPtr regX regY regZ];
    try (unfold is_u8; lia).
  - rewrite length_fread; [reflexivity | cbn; lia].
  - apply Forall_fread; [apply Forall_replicate; unfold is_u8; lia | exact Hp].
  - reflexivity.
  - apply Forall_replicate. unfold is_u8. lia.
Qed.

(** What the flag clearing at the end of an iteration does to the machine
    that [SimStep] leaves. *)
Lemma flags_cleared (s : Machine) :
  let s' := s |> (fun m => if regsDirty m then set_regsDirty false m else m)
              |> (fun m => if screenDirty m then set_screenDirty false m else m)
              |> (fun m => if ramDirty m then set_ramDirty false m else m) in
  s' = mkMachine (rom s) (ram s) (pcPtr s) (tmpPcPtr s) (locPtr s) (regX s)
                 (regY s) (regZ s) (useCarry s) (carry s) false false false.
Proof.
  destruct s as [r a pc tmp loc x y z uc c rd gd sd].
  destruct rd, gd, sd; reflexivity.
Qed.

Lemma iteration_eq m :
  iteration m
  = mkMachine (rom (SimStep m)) (ram (SimStep m)) (pcPtr (SimStep m))
              (tmpPcPtr (SimStep m)) (locPtr (SimStep m)) (regX (SimStep m))
              (regY (SimStep m)) (regZ (SimStep m)) (useCarry (SimStep m))
              (carry (SimStep m)) false false false.
Proof. unfold iteration. exact (flags_cleared (SimStep m)). Qed.

Lemma iteration_wf m : wf m -> wf (iteration m).
Proof.
  intros Hwf. apply SimStep_wf in Hwf. rewrite iteration_eq.
  revert Hwf. generalize (SimStep m). clear m.
  intros s [Hrl Hr Hal Ha Hpc Htmp Hloc Hx Hy Hz].
  constructor; assumption.
Qed.

(** Unfolding an iterated function by one round. *)
Lemma iterate_S {A} (f : A -> A) n (a : A) :
  (fix go (k : nat) (x : A) {struct k} : A :=
     match k with
     | O => x
     | S k' => go k' (f x)
     end) (S n) a
  = (fix go (k : nat) (x : A) {struct k} : A :=
       match k with
       | O => x
       | S k' => go k' (f x)
       end) n (f a).
Proof. reflexivity. Qed.

Lemma drive_S n m : drive (S n) m = drive n (iteration m).
Proof. exact (iterate_S iteration n m). Qed.

Lemma drive_wf n m : wf m -> wf (drive n m).
Proof.
  revert m. induction n as [| n IH]; intros m Hwf.
  - exact Hwf.
  - rewrite drive_S. apply IH, iteration_wf, Hwf.
Qed.

Example end_to_end :
  let m := run 3 (boot [0x55; 0x66; 0x10]) in
  regZ m = 0xB /\ carry m = false /\ pcPtr m = 3.
Proof. vm_compute. repeat split. Qed.

Example pc_wraps :
  pcPtr (SimStep (set_pcPtr 255 (boot [0x00]))) = 0.
Proof. vm_compute. reflexivity. Qed.

(** ** The claims at sample programs *)

Lemma nibble_round_trip_witness :
  length (replicate 128 0xA5) = 128%nat /\ 0 <= 5 <= 255 /\ 0 <= 9 <= 15
  /\ ReadNibble (WriteNibble (replicate 128 0xA5) 5 9) 5 = 9
  /\ index (WriteNibble (replicate 128 0xA5) 5 9) 2 = 0x95.
Proof.
  assert (Hlen : length (replicate 128 0xA5) = 128%nat) by reflexivity.
  assert (Ha : 0 <= 5 <= 255) by lia.
  assert (Hv : 0 <= 9 <= 15) by lia.
  destruct (nibble_round_trip (replicate 128 0xA5) 5 9 Hlen Ha Hv)
    as [Hrt [Hother Hsel]].
  split; [exact Hlen | split; [exact Ha | split; [exact Hv |]]].
  split; [exact Hrt | reflexivity].
Defined.

Lemma JMP_lands_on_tmpPcPtr_witness :
  is_u8 (tmpPcPtr (run 2 (boot prog_jump)))
  /\ fetched (run 2 (boot prog_jump)) = Some OP_JMP
  /\ tmpPcPtr (run 2 (boot prog_jump)) = 0x10
  /\ pcPtr (SimStep (run 2 (boot prog_jump))) = 0x10
  /\ tmpPcPtr (SimStep (run 2 (boot prog_jump))) = 0x0F.
Proof.
  assert (Hu : is_u8 (tmpPcPtr (run 2 (boot prog_jump))))
    by (apply is_u8b_sound; vm_compute; reflexivity).
  assert (Hop : fetched (run 2 (boot prog_jump)) = Some OP_JMP)
    by (vm_compute; reflexivity).
  assert (Htmp : tmpPcPtr (run 2 (boot prog_jump)) = 0x10)
    by (vm_compute; reflexivity).
  destruct (JMP_lands_on_tmpPcPtr (run 2 (boot prog_jump)) Hu Hop)
    as [Hpc [Hdec Hat]].
  rewrite Htmp in Hdec.
  split; [exact Hu | split; [exact Hop | split; [exact Htmp |]]].
  split; [exact (proj1 (Hat Htmp)) | exact Hdec].
Defined.

Lemma ADD_sum_and_carry_witness :
  0 <= regX (run 2 (boot prog_add)) <= 15
  /\ 0 <= regY (run 2 (boot prog_add)) <= 15
  /\ fetched (run 2 (boot prog_add)) = Some OP_ADD
  /\ (regZ (SimStep (run 2 (boot prog_add))) = 0x0
      /\ carry (SimStep (run 2 (boot prog_add))) = true)
  /\ fetched (run 4 (boot prog_add)) = Some OP_ADD
  /\ (regZ (SimStep (run 4 (boot prog_add))) = 0x1
      /\ carry (SimStep (run 4 (boot prog_add))) = true).
Proof.
  assert (Hx : regX (run 2 (boot prog_add)) = 0xF) by (vm_compute; reflexivity).
  assert (Hy : regY (run 2 (boot prog_add)) = 0x1) by (vm_compute; reflexivity).
  assert (Hu : useCarry (run 2 (boot prog_add)) = false) by (vm_compute; reflexivity).
  assert (Hop : fetched (run 2 (boot prog_add)) = Some OP_ADD) by (vm_compute; reflexivity).
  assert (Hx' : regX (run 4 (boot prog_add)) = 0xF) by (vm_compute; reflexivity).
  assert (Hy' : regY (run 4 (boot prog_add)) = 0x1) by (vm_compute; reflexivity).
  assert (Hu' : useCarry (run 4 (boot prog_add)) = true) by (vm_compute; reflexivity).
  assert (Hc' : carry (run 4 (boot prog_add)) = true) by (vm_compute; reflexivity).
  assert (Hop' : fetched (run 4 (boot prog_add)) = Some OP_ADD) by (vm_compute; reflexivity).
  assert (Hxr : 0 <= regX (run 2 (boot prog_add)) <= 15) by (rewrite Hx; lia).
  assert (Hyr : 0 <= regY (run 2 (boot prog_add)) <= 15) by (rewrite Hy; lia).
  assert (Hxr' : 0 <= regX (run 4 (boot prog_add)) <= 15) by (rewrite Hx'; lia).
  assert (Hyr' : 0 <= regY (run 4 (boot prog_add)) <= 15) by (rewrite Hy'; lia).
  destruct (ADD_sum_and_carry (run 2 (boot prog_add)) Hxr Hyr Hop)
    as [_ [_ [Hfirst _]]].
  destruct (ADD_sum_and_carry (run 4 (boot prog_add)) Hxr' Hyr' Hop')
    as [_ [_ [_ Hsecond]]].
  split; [exact Hxr | split; [exact Hyr | split; [exact Hop |]]].
  split; [exact (Hfirst Hx Hy Hu) | split; [exact Hop' |]].
  exact (Hsecond Hx' Hy' Hu' Hc').
Defined.

Lemma SUB_borrow_inverse_witness :
  0 <= regX (run 2 (boot prog_sub)) <= 15
  /\ 0 <= regY (run 2 (boot prog_sub)) <= 15
  /\ fetched (run 2 (boot prog_sub)) = Some OP_SUB
  /\ regZ (SimStep (run 2 (boot prog_sub))) = 0xE
  /\ carry (SimStep (run 2 (boot prog_sub))) = false.
Proof.
  assert (Hx : regX (run 2 (boot prog_sub)) = 3) by (vm_compute; reflexivity).
  assert (Hy : regY (run 2 (boot prog_sub)) = 5) by (vm_compute; reflexivity).
  assert (Hu : useCarry (run 2 (boot prog_sub)) = false) by (vm_compute; reflexivity).
  assert (Hop : fetched (run 2 (boot prog_sub)) = Some OP_SUB) by (vm_compute; reflexivity).
  assert (Hxr : 0 <= regX (run 2 (boot prog_sub)) <= 15) by (rewrite Hx; lia).
  assert (Hyr : 0 <= regY (run 2 (boot prog_sub)) <= 15) by (rewrite Hy; lia).
  destruct (SUB_borrow_inverse (run 2 (boot prog_sub)) Hxr Hyr Hop)
    as [Hz [Hc _]].
  rewrite Hx, Hy, Hu in Hz, Hc.
  split; [exact Hxr | split; [exact Hyr | split; [exact Hop |]]].
  split; [exact Hz | exact Hc].
Defined.

(** ** Half-writes of [tmpPcPtr] and [locPtr] *)

Lemma low_half_written old imm :
  0 <= imm < 16 ->
  u8 (Z.lor (Z.land old 0xF0) imm) = Z.lor (Z.land old 0xF0) imm
  /\ low_nibble (Z.lor (Z.land old 0xF0) imm) = imm
  /\ high_nibble (Z.lor (Z.land old 0xF0) imm) = high_nibble old.
Proof.
  intros Hi. pose proof (high_nibble_range old) as Hh.
  rewrite land_F0, lor_nibbles by exact Hi.
  split; [apply u8_id, nibbles_is_u8; assumption |].
  split; [now apply low_nibble_join | now apply high_nibble_join].
Qed.

Lemma high_half_written old imm :
  0 <= imm < 16 ->
  u8 (Z.lor (Z.land old 0x0F) (Z.shiftl imm 4))
  = Z.lor (Z.land old 0x0F) (Z.shiftl imm 4)
  /\ high_nibble (Z.lor (Z.land old 0x0F) (Z.shiftl imm 4)) = imm
  /\ low_nibble (Z.lor (Z.land old 0x0F) (Z.shiftl imm 4)) = low_nibble old.
Proof.
  intros Hi. pose proof (low_nibble_range old) as Hl.
  rewrite land_0F, shiftl_4, lor_nibbles' by exact Hl.
  split; [apply u8_id, nibbles_is_u8; assumption |].
  split; [now apply high_nibble_join | now apply low_nibble_join].
Qed.

(** C4. For a 4-bit immediate [imm], a PC1 step sets the low nibble of
    [tmpPcPtr] to [imm], [tmpPcPtr = (tmpPcPtr & 0xF0) | imm], and a PC2 step
    sets the high nibble, [tmpPcPtr = (tmpPcPtr & 0x0F) | (imm << 4)]; each
    leaves the other nibble as it was.  This is the reverse of WT1 and WT2:
    WT1 sets the high nibble of [locPtr] and WT2 the low nibble. *)
Theorem PC1_low_PC2_high (m : Machine) (imm : Z) :
  fetch_imm m = imm ->
  0 <= imm <= 15
  /\ (fetched m = Some OP_PC1 ->
      tmpPcPtr (SimStep m) = Z.lor (Z.land (tmpPcPtr m) 0xF0) imm
      /\ low_nibble (tmpPcPtr (SimStep m)) = imm
      /\ high_nibble (tmpPcPtr (SimStep m)) = high_nibble (tmpPcPtr m))
  /\ (fetched m = Some OP_PC2 ->
      tmpPcPtr (SimStep m) = Z.lor (Z.land (tmpPcPtr m) 0x0F) (Z.shiftl imm 4)
      /\ high_nibble (tmpPcPtr (SimStep m)) = imm
      /\ low_nibble (tmpPcPtr (SimStep m)) = low_nibble (tmpPcPtr m))
  /\ (fetched m = Some OP_WT1 ->
      locPtr (SimStep m) = Z.lor (Z.land (locPtr m) 0x0F) (Z.shiftl imm 4)
      /\ high_nibble (locPtr (SimStep m)) = imm
      /\ low_nibble (locPtr (SimStep m)) = low_nibble (locPtr m))
  /\ (fetched m = Some OP_WT2 ->
      locPtr (SimStep m) = Z.lor (Z.land (locPtr m) 0xF0) imm
      /\ low_nibble (locPtr (SimStep m)) = imm
      /\ high_nibble (locPtr (SimStep m)) = high_nibble (locPtr m)).
Proof.
  intros Himm. pose proof (fetch_imm_range m) as Hr. rewrite Himm in Hr.
  split; [lia |].
  split; [| split; [| split]]; intros Hop; step_with Hop; rewrite Himm.
  - destruct (low_half_written (tmpPcPtr m) imm Hr) as [-> [Hl Hh]]. auto.
  - destruct (high_half_written (tmpPcPtr m) imm Hr) as [-> [Hh Hl]]. auto.
  - destruct (high_half_written (locPtr m) imm Hr) as [-> [Hh Hl]]. auto.
  - destruct (low_half_written (locPtr m) imm Hr) as [-> [Hl Hh]]. auto.
Qed.

Lemma PC1_low_PC2_high_witness :
  fetch_imm (boot prog_halves) = 0x7
  /\ tmpPcPtr (SimStep (boot prog_halves)) = 0x07
  /\ fetch_imm (run 1 (boot prog_halves)) = 0x3
  /\ tmpPcPtr (SimStep (run 1 (boot prog_halves))) = 0x37
  /\ fetch_imm (run 2 (boot prog_halves)) = 0x9
  /\ locPtr (SimStep (run 2 (boot prog_halves))) = 0x90
  /\ fetch_imm (run 3 (boot prog_halves)) = 0xC
  /\ locPtr (SimStep (run 3 (boot prog_halves))) = 0x9C.
Proof.
  assert (I0 : fetch_imm (boot prog_halves) = 0x7) by (vm_compute; reflexivity).
  assert (I1 : fetch_imm (run 1 (boot prog_halves)) = 0x3) by (vm_compute; reflexivity).
  assert (I2 : fetch_imm (run 2 (boot prog_halves)) = 0x9) by (vm_compute; reflexivity).
  assert (I3 : fetch_imm (run 3 (boot prog_halves)) = 0xC) by (vm_compute; reflexivity).
  assert (O0 : fetched (boot prog_halves) = Some OP_PC1) by (vm_compute; reflexivity).
  assert (O1 : fetched (run 1 (boot prog_halves)) = Some OP_PC2) by (vm_compute; reflexivity).
  assert (O2 : fetched (run 2 (boot prog_halves)) = Some OP_WT1) by (vm_compute; reflexivity).
  assert (O3 : fetched (run 3 (boot prog_halves)) = Some OP_WT2) by (vm_compute; reflexivity).
  destruct (PC1_low_PC2_high _ _ I0) as [_ [H0 _]].
  destruct (PC1_low_PC2_high _ _ I1) as [_ [_ [H1 _]]].
  destruct (PC1_low_PC2_high _ _ I2) as [_ [_ [_ [H2 _]]]].
  destruct (PC1_low_PC2_high _ _ I3) as [_ [_ [_ [_ H3]]]].
  split; [exact I0 | split; [exact (proj1 (H0 O0)) |]].
  split; [exact I1 | split; [exact (proj1 (H1 O1)) |]].
  split; [exact I2 | split; [exact (proj1 (H2 O2)) |]].
  split; [exact I3 | exact (proj1 (H3 O3))].
Defined.

(** ** Dirty flags *)

Lemma SimStep_flags m o :
  fetched m = Some o ->
  regsDirty (SimStep m) = regsDirty (exec o (fetch_imm m) m)
  /\ ramDirty (SimStep m) = ramDirty (exec o (fetch_imm m) m)
  /\ screenDirty (SimStep m) = screenDirty (exec o (fetch_imm m) m).
Proof. intros Hop. rewrite (SimStep_fetched _ _ Hop). repeat split. Qed.

Lemma screen_addrs_spec loc : loc ∈ screen_addrs <-> 0 <= loc <= 3.
Proof.
  change screen_addrs with [0; 0; 1; 1; 2; 2; 3; 3].
  rewrite !elem_of_cons, elem_of_nil. lia.
Qed.

(** C7. A ZTR step sets [ramDirty], and assigns [screenDirty] afresh:
    it is [true] if and only if [locPtr < 4], whatever it was before.  ZTR
    with [locPtr = 3] gives [true], with [locPtr = 4] gives [false]. *)
Theorem ZTR_dirty_flags (m : Machine) :
  fetched m = Some OP_ZTR ->
  ramDirty (SimStep m) = true
  /\ screenDirty (SimStep m) = (locPtr m <? 4)
  /\ (screenDirty (SimStep m) = true <-> locPtr m < 4)
  /\ (locPtr m = 3 -> screenDirty (SimStep m) = true)
  /\ (locPtr m = 4 -> screenDirty (SimStep m) = false).
Proof.
  intros Hop. destruct (SimStep_flags m _ Hop) as [_ [-> ->]]. globals.
  split; [reflexivity | split; [reflexivity | split; [| split]]].
  - apply Z.ltb_lt.
  - intros ->. reflexivity.
  - intros ->. reflexivity.
Qed.

Lemma ZTR_dirty_flags_witness :
  fetched (run 2 (boot (prog_store 3))) = Some OP_ZTR
  /\ locPtr (run 2 (boot (prog_store 3))) = 3
  /\ screenDirty (SimStep (run 2 (boot (prog_store 3)))) = true
  /\ ramDirty (SimStep (run 2 (boot (prog_store 3)))) = true
  /\ fetched (run 2 (boot (prog_store 4))) = Some OP_ZTR
  /\ locPtr (run 2 (boot (prog_store 4))) = 4
  /\ screenDirty (SimStep (run 2 (boot (prog_store 4)))) = false.
Proof.
  assert (O3 : fetched (run 2 (boot (prog_store 3))) = Some OP_ZTR) by (vm_compute; reflexivity).
  assert (L3 : locPtr (run 2 (boot (prog_store 3))) = 3) by (vm_compute; reflexivity).
  assert (O4 : fetched (run 2 (boot (prog_store 4))) = Some OP_ZTR) by (vm_compute; reflexivity).
  assert (L4 : locPtr (run 2 (boot (prog_store 4))) = 4) by (vm_compute; reflexivity).
  destruct (ZTR_dirty_flags _ O3) as [Hram [_ [_ [Hat3 _]]]].
  destruct (ZTR_dirty_flags _ O4) as [_ [_ [_ [_ Hat4]]]].
  split; [exact O3 | split; [exact L3 | split; [exact (Hat3 L3) |]]].
  split; [exact Hram | split; [exact O4 | split; [exact L4 | exact (Hat4 L4)]]].
Defined.

(** C6, as the code has it.  A ZTR step reports [screenDirty = true] exactly
    when [locPtr] is one of the nibbles that [UpdateScreen] draws; these are
    the first 4 nibbles (2 bytes) of [ram], each drawn on two rows.  For
    every [locPtr] in 0..3 the flag is [true], and for every [locPtr] in
    4..255 it is [false]. *)
Theorem ZTR_screenDirty_drawn_nibbles (m : Machine) :
  is_u8 (locPtr m) ->
  fetched m = Some OP_ZTR ->
  (screenDirty (SimStep m) = true <-> locPtr m ∈ screen_addrs)
  /\ (0 <= locPtr m <= 3 -> screenDirty (SimStep m) = true)
  /\ (4 <= locPtr m <= 255 -> screenDirty (SimStep m) = false).
Proof.
  intros Hloc Hop. destruct (SimStep_flags m _ Hop) as [_ [_ ->]]. globals.
  unfold is_u8 in Hloc. rewrite screen_addrs_spec.
  split; [rewrite Z.ltb_lt; lia | split; intros Hr].
  - apply Z.ltb_lt. lia.
  - apply Z.ltb_ge. lia.
Qed.

Lemma ZTR_screenDirty_drawn_nibbles_witness :
  is_u8 (locPtr (run 2 (boot (prog_store 2))))
  /\ fetched (run 2 (boot (prog_store 2))) = Some OP_ZTR
  /\ locPtr (run 2 (boot (prog_store 2))) = 2
  /\ screenDirty (SimStep (run 2 (boot (prog_store 2)))) = true.
Proof.
  assert (Hu : is_u8 (locPtr (run 2 (boot (prog_store 2)))))
    by (apply is_u8b_sound; vm_compute; reflexivity).
  assert (Hop : fetched (run 2 (boot (prog_store 2))) = Some OP_ZTR) by (vm_compute; reflexivity).
  assert (Hl : locPtr (run 2 (boot (prog_store 2))) = 2) by (vm_compute; reflexivity).
  destruct (ZTR_screenDirty_drawn_nibbles _ Hu Hop) as [_ [Hon _]].
  split; [exact Hu | split; [exact Hop | split; [exact Hl |]]].
  apply Hon. rewrite Hl. lia.
Defined.

(** C6 as stated fails: a ZTR step with [locPtr = 5], a nibble of the
    third byte of [ram], leaves [screenDirty = false]. *)
Lemma ZTR_at_nibble_5_not_screenDirty :
  wf (run 2 (boot (prog_store 5)))
  /\ fetched (run 2 (boot (prog_store 5))) = Some OP_ZTR
  /\ locPtr (run 2 (boot (prog_store 5))) = 5
  /\ 0 <= locPtr (run 2 (boot (prog_store 5))) <= 7
  /\ screenDirty (SimStep (run 2 (boot (prog_store 5)))) = false.
Proof.
  split.
  - apply run_wf, boot_wf. repeat constructor; unfold is_u8; cbn; lia.
  - vm_compute. repeat split; discriminate.
Qed.

(** ** What a ZTR step does to the screen *)

(** A write leaves every other nibble of the buffer as it was. *)
Lemma ReadNibble_WriteNibble_other buf a b v :
  length buf = 128%nat -> is_u8 a -> is_u8 b -> a <> b ->
  ReadNibble (WriteNibble buf a v) b = ReadNibble buf b.
Proof.
  intros Hlen Ha Hb Hab.
  destruct (addr_in_bounds buf a Hlen Ha) as [Hi Hin].
  destruct (addr_in_bounds buf b Hlen Hb) as [Hj _].
  destruct (Z.eq_dec (b / 2) (a / 2)) as [Hsame | Hdiff].
  - pose proof (WriteNibble_byte buf a v Hi Hin) as Hbyte.
    pose proof (high_nibble_range (index buf (a / 2))) as Hh.
    pose proof (low_nibble_range (index buf (a / 2))) as Hl.
    pose proof (low_nibble_range v) as Hv.
    pose proof (Z.div_mod a 2 ltac:(lia)) as Hda.
    pose proof (Z.div_mod b 2 ltac:(lia)) as Hdb.
    pose proof (Z.mod_pos_bound a 2 ltac:(lia)) as Hma.
    pose proof (Z.mod_pos_bound b 2 ltac:(lia)) as Hmb.
    destruct (a mod 2 =? 0) eqn:Hpar.
    + apply Z.eqb_eq in Hpar.
      rewrite !ReadNibble_odd by lia. rewrite Hsame, Hbyte.
      apply high_nibble_join; lia.
    + apply Z.eqb_neq in Hpar.
      rewrite !ReadNibble_even by lia. rewrite Hsame, Hbyte.
      apply low_nibble_join; lia.
  - unfold ReadNibble.
    now rewrite (WriteNibble_other_byte buf a v (b / 2)) by assumption.
Qed.

(** The grid is drawn from nibbles 0 to 3 alone: a ZTR step to any other
    nibble leaves the drawing as it was. *)
Lemma ZTR_off_screen m :
  wf m -> fetched m = Some OP_ZTR -> 4 <= locPtr m ->
  UpdateScreen (SimStep m) = UpdateScreen (set_ramDirty true m).
Proof.
  intros Hwf Hop Hloc. step_with Hop. unfold UpdateScreen. globals.
  cbn [negb]. f_equal.
  apply list_fmap_ext. intros i row Hrow. f_equal.
  apply ReadNibble_WriteNibble_other.
  - apply Hwf.
  - apply Hwf.
  - apply u8_is_u8.
  - assert (Hin : screen_addr row ∈ screen_addrs)
      by (apply list_elem_of_fmap; exists row; split;
          [reflexivity | now apply list_elem_of_lookup_2 in Hrow]).
    apply screen_addrs_spec in Hin. lia.
Qed.

(** ** [regsDirty] *)

(** Every case of the [switch] that changes a register sets [regsDirty],
    the JMP case apart. *)
Lemma exec_mutation_flagged o imm m :
  o <> OP_JMP ->
  registers (exec o imm m) <> registers m ->
  regsDirty (exec o imm m) = true.
Proof.
  intros Hjmp Hmut.
  destruct o; try reflexivity; try (exfalso; apply Hmut; reflexivity).
  now exfalso.
Qed.

(** The JMP case changes [tmpPcPtr] and leaves [regsDirty] as it finds it. *)
Lemma JMP_regsDirty m :
  is_u8 (tmpPcPtr m) ->
  fetched m = Some OP_JMP ->
  tmpPcPtr (SimStep m) <> tmpPcPtr m /\ regsDirty (SimStep m) = regsDirty m.
Proof.
  intros Htmp Hop. destruct (JMP_step m Hop) as [Hdec _].
  destruct (SimStep_flags m _ Hop) as [-> _]. globals.
  split; [| reflexivity].
  rewrite Hdec. unfold is_u8 in Htmp.
  destruct (Z.eq_dec (tmpPcPtr m) 0) as [-> | Hnz]; [discriminate |].
  rewrite Z.mod_small by lia. lia.
Qed.

(** C9 at a JMP reached by the driver loop: [prog_jump] after two
    iterations is about to execute JMP with [regsDirty] cleared; the step
    takes [tmpPcPtr] from [0x10] to [0x0F] and [pcPtr] from [2] to [0x10],
    and [regsDirty] is still [false] after it. *)
Theorem JMP_leaves_regsDirty_unset :
  fetched (drive 2 (boot prog_jump)) = Some OP_JMP
  /\ regsDirty (drive 2 (boot prog_jump)) = false
  /\ tmpPcPtr (drive 2 (boot prog_jump)) = 0x10
  /\ tmpPcPtr (SimStep (drive 2 (boot prog_jump))) = 0x0F
  /\ pcPtr (drive 2 (boot prog_jump)) = 2
  /\ pcPtr (SimStep (drive 2 (boot prog_jump))) = 0x10
  /\ regsDirty (SimStep (drive 2 (boot prog_jump))) = false.
Proof. vm_compute. repeat split. Qed.

(** ** Program load *)

Lemma take_min {A} (l : list A) n : take (n `min` length l) l = take n l.
Proof.
  destruct (Nat.le_ge_cases n (length l)) as [Hle | Hge].
  - now rewrite Nat.min_l.
  - rewrite Nat.min_r by exact Hge. now rewrite !take_ge by lia.
Qed.

(** What [fread] leaves in a buffer at least [count] long. *)
Lemma fread_spec buff count stream :
  (count <= length buff)%nat ->
  let n := (count `min` length stream)%nat in
  (fread buff count stream).2 = n
  /\ take n (fread buff count stream).1 = take n stream
  /\ drop n (fread buff count stream).1 = drop n buff.
Proof.
  intros Hc n. unfold fread. cbn [fst snd].
  assert (Hn : length (take count stream) = n) by apply length_take.
  rewrite Hn. split; [reflexivity | split].
  - rewrite take_app_length' by (symmetry; exact Hn). symmetry. apply take_min.
  - now rewrite drop_app_length' by (symmetry; exact Hn).
Qed.

(** C10, at the code.  Program load as a function of the input: at most
    255 bytes are read.  When the file opens, the load fails with "Program
    is empty!" and status 1 exactly when zero bytes are read, and otherwise
    [rom[0..n)] holds the [n] bytes read and the rest of the 256-byte [rom]
    stays zero.  When the file cannot be opened, the process is killed
    inside [fclose(NULL)]: it returns no status at all, and "Program not
    found!" reaches the user only when [stdout] is line buffered. *)
Theorem load_outcomes (stdout_line_buffered : bool) (prgFile : option (list Z)) :
  match prgFile with
  | None =>
      load stdout_line_buffered (rom initial) None
      = (if stdout_line_buffered then [ProgramNotFound] else [], Fault)
      /\ (forall status,
            (load stdout_line_buffered (rom initial) None).2 <> Return status)
      /\ (stdout_line_buffered = false ->
          (load stdout_line_buffered (rom initial) None).1 = [])
  | Some stream =>
      let n := (255 `min` length stream)%nat in
      (n <= 255)%nat
      /\ (n = 0%nat ->
          load stdout_line_buffered (rom initial) (Some stream)
          = ([PrintfRead 0; ProgramEmpty], Return 1))
      /\ (n <> 0%nat ->
          exists rom',
            load stdout_line_buffered (rom initial) (Some stream)
            = ([PrintfRead n], Loaded rom')
            /\ length rom' = 256%nat
            /\ take n rom' = take n stream
            /\ drop n rom' = replicate (256 - n) 0)
  end.
Proof.
  destruct prgFile as [stream |].
  - intros n.
    assert (Hc : (255 <= length (rom initial))%nat) by (cbn; lia).
    destruct (fread_spec (rom initial) 255 stream Hc) as [Hn [Htake Hdrop]].
    fold n in Hn, Htake, Hdrop.
    pose proof (length_fread (rom initial) 255 stream Hc) as Hlen.
    unfold load. change (sizeof_rom - 1)%nat with 255%nat.
    destruct (fread (rom initial) 255 stream) as [rom' readBytes] eqn:Hread.
    cbn [fst snd] in Hn, Htake, Hdrop, Hlen. subst readBytes.
    split; [apply Nat.le_min_l | split].
    + intros ->. reflexivity.
    + intros Hnz. destruct (n <=? 0)%nat eqn:Hle;
        [apply Nat.leb_le in Hle; lia |].
      exists rom'. split; [reflexivity | split; [exact Hlen | split; [exact Htake |]]].
      rewrite Hdrop. cbn [initial rom]. apply drop_replicate.
  - cbn [load fst snd]. split; [reflexivity | split].
    + intros status. discriminate.
    + intros ->. reflexivity.
Qed.

(** * Further properties of the simulator *)

(** ** Invariants of execution *)

(** X1. The ranges of the C types hold after any number of steps, with or
    without the driver loop's flag clearing in between. *)
Theorem wf_is_invariant (m : Machine) (n : nat) :
  wf m -> wf (SimStep m) /\ wf (run n m) /\ wf (drive n m).
Proof.
  intros Hwf. split; [now apply SimStep_wf | split].
  - now apply run_wf.
  - now apply drive_wf.
Qed.

Lemma wf_is_invariant_witness :
  wf (boot prog_add) /\ wf (run 5 (boot prog_add)).
Proof.
  assert (Hwf : wf (boot prog_add))
    by (apply boot_wf; repeat constructor; unfold is_u8; cbn; lia).
  split; [exact Hwf | exact (proj1 (proj2 (wf_is_invariant _ 5 Hwf)))].
Defined.

Lemma SimStep_rom m : rom (SimStep m) = rom m.
Proof.
  unfold SimStep. destruct (switch (fetch_op m)) as [o |]; [destruct o |];
    reflexivity.
Qed.

(** X2. The program store is read-only: no number of steps changes [rom]. *)
Theorem rom_is_read_only (m : Machine) (n : nat) :
  rom (run n m) = rom m /\ rom (drive n m) = rom m.
Proof.
  split; revert m; induction n as [| n IH]; intros m;
    try reflexivity.
  - cbn [run]. rewrite IH. apply SimStep_rom.
  - rewrite drive_S, IH, iteration_eq. apply SimStep_rom.
Qed.

(** X3. Only ZTR writes [ram]: a step with any other opcode leaves it as it
    is, and so does a step whose opcode byte selects no case. *)
Theorem only_ZTR_writes_ram (m : Machine) :
  fetched m <> Some OP_ZTR -> ram (SimStep m) = ram m.
Proof.
  intros Hop. unfold fetched in Hop. unfold SimStep.
  destruct (switch (fetch_op m)) as [o |]; [destruct o |];
    try reflexivity.
  now exfalso.
Qed.

Lemma only_ZTR_writes_ram_witness :
  fetched (run 1 (boot prog_store_load)) <> Some OP_ZTR
  /\ ram (SimStep (run 1 (boot prog_store_load)))
     = ram (run 1 (boot prog_store_load)).
Proof.
  assert (Hop : fetched (run 1 (boot prog_store_load)) <> Some OP_ZTR)
    by (vm_compute; discriminate).
  split; [exact Hop | exact (only_ZTR_writes_ram _ Hop)].
Defined.

(** The nibble that a ZTR step leaves at [locPtr]. *)
Lemma ZTR_nibble_written m :
  wf m -> fetched m = Some OP_ZTR ->
  ReadNibble (ram (SimStep m)) (locPtr m) = low_nibble (regZ m).
Proof.
  intros Hwf Hop. step_with Hop.
  pose proof (wf_ram_length m Hwf) as Hlen.
  pose proof (wf_locPtr m Hwf) as Hloc.
  destruct (addr_in_bounds (ram m) (locPtr m) Hlen Hloc) as [Hi Hin].
  pose proof (WriteNibble_byte (ram m) (locPtr m) (regZ m) Hi Hin) as Hbyte.
  pose proof (high_nibble_range (index (ram m) (locPtr m / 2))) as Hh.
  pose proof (low_nibble_range (index (ram m) (locPtr m / 2))) as Hl.
  pose proof (low_nibble_range (regZ m)) as Hv.
  destruct (locPtr m mod 2 =? 0) eqn:Hpar.
  - apply Z.eqb_eq in Hpar. rewrite ReadNibble_even, Hbyte by exact Hpar.
    now apply low_nibble_join.
  - apply Z.eqb_neq in Hpar. rewrite ReadNibble_odd, Hbyte by exact Hpar.
    now apply high_nibble_join.
Qed.

(** X4. A ZTR step writes the low four bits of [regZ] to the nibble that
    [locPtr] addresses and leaves every other nibble of [ram] as it was. *)
Theorem ZTR_writes_one_nibble (m : Machine) (b : Z) :
  wf m -> fetched m = Some OP_ZTR -> is_u8 b ->
  ReadNibble (ram (SimStep m)) b
  = if b =? locPtr m then low_nibble (regZ m) else ReadNibble (ram m) b.
Proof.
  intros Hwf Hop Hb.
  destruct (b =? locPtr m) eqn:Heq.
  - apply Z.eqb_eq in Heq. subst b. now apply ZTR_nibble_written.
  - apply Z.eqb_neq in Heq. step_with Hop.
    apply ReadNibble_WriteNibble_other; auto; apply Hwf.
Qed.

Lemma ZTR_writes_one_nibble_witness :
  wf (run 2 (boot prog_store_load))
  /\ fetched (run 2 (boot prog_store_load)) = Some OP_ZTR
  /\ is_u8 2
  /\ ReadNibble (ram (SimStep (run 2 (boot prog_store_load)))) 2 = 0xB.
Proof.
  assert (Hwf : wf (run 2 (boot prog_store_load)))
    by (apply run_wf, boot_wf; repeat constructor; unfold is_u8; cbn; lia).
  assert (Hop : fetched (run 2 (boot prog_store_load)) = Some OP_ZTR)
    by (vm_compute; reflexivity).
  assert (Hb : is_u8 2) by (unfold is_u8; lia).
  split; [exact Hwf | split; [exact Hop | split; [exact Hb |]]].
  exact (ZTR_writes_one_nibble _ 2 Hwf Hop Hb).
Defined.

(** X5. Every step but a jump moves [pcPtr] to the next address, from 255 back
    to 0. *)
Theorem pc_advances_by_one (m : Machine) :
  fetched m <> Some OP_JMP ->
  pcPtr (SimStep m) = (pcPtr m + 1) mod 256
  /\ (pcPtr m = 255 -> pcPtr (SimStep m) = 0).
Proof.
  intros Hop. unfold fetched in Hop.
  assert (Hpc : pcPtr (SimStep m) = (pcPtr m + 1) mod 256).
  { unfold SimStep.
    destruct (switch (fetch_op m)) as [o |]; [destruct o |];
      try reflexivity.
    now exfalso. }
  split; [exact Hpc |]. intros H255. rewrite Hpc, H255. reflexivity.
Qed.

Lemma pc_advances_by_one_witness :
  fetched (set_pcPtr 255 (boot prog_add)) <> Some OP_JMP
  /\ pcPtr (set_pcPtr 255 (boot prog_add)) = 255
  /\ pcPtr (SimStep (set_pcPtr 255 (boot prog_add))) = 0.
Proof.
  assert (Hop : fetched (set_pcPtr 255 (boot prog_add)) <> Some OP_JMP)
    by (vm_compute; discriminate).
  assert (Hpc : pcPtr (set_pcPtr 255 (boot prog_add)) = 255) by reflexivity.
  split; [exact Hop | split; [exact Hpc |]].
  exact (proj2 (pc_advances_by_one _ Hop) Hpc).
Defined.

(** ** What each opcode leaves alone *)

(** X6. [carry] is changed by ADD and SUB alone, [useCarry] by USC alone,
    [locPtr] by WT1 and WT2 alone, [tmpPcPtr] by PC1, PC2 and JMP alone; a
    register that the opcode does not write keeps its low four bits. *)
Theorem SimStep_frame (m : Machine) (o : Opcodes) :
  fetched m = Some o ->
  (o <> OP_ADD -> o <> OP_SUB -> carry (SimStep m) = carry m)
  /\ (o <> OP_USC -> useCarry (SimStep m) = useCarry m)
  /\ (o <> OP_WT1 -> o <> OP_WT2 -> locPtr (SimStep m) = locPtr m)
  /\ (o <> OP_PC1 -> o <> OP_PC2 -> o <> OP_JMP ->
      tmpPcPtr (SimStep m) = tmpPcPtr m)
  /\ (o <> OP_WTX -> o <> OP_RTX -> regX (SimStep m) = low_nibble (regX m))
  /\ (o <> OP_WTY -> o <> OP_RTY -> regY (SimStep m) = low_nibble (regY m))
  /\ (o <> OP_ADD -> o <> OP_SUB -> o <> OP_WTZ -> o <> OP_RTZ ->
      regZ (SimStep m) = low_nibble (regZ m)).
Proof.
  intros Hop. step_with Hop.
  repeat match goal with |- _ /\ _ => split end; intros;
    destruct o; globals; rewrite ?mask_low_nibble;
    solve [reflexivity | congruence].
Qed.

Lemma SimStep_frame_witness :
  fetched (run 3 (boot prog_add)) = Some OP_USC
  /\ carry (SimStep (run 3 (boot prog_add))) = true
  /\ regX (SimStep (run 3 (boot prog_add))) = 0xF.
Proof.
  assert (Hop : fetched (run 3 (boot prog_add)) = Some OP_USC)
    by (vm_compute; reflexivity).
  destruct (SimStep_frame _ _ Hop) as [Hc [_ [_ [_ [Hx _]]]]].
  split; [exact Hop | split].
  - rewrite Hc by discriminate. vm_compute. reflexivity.
  - rewrite Hx by discriminate. vm_compute. reflexivity.
Defined.

(** ** How opcodes compose *)

(** X7. A nibble stored by ZTR and read back by RTX, RTY or RTZ in the next
    step is the low four bits that [regZ] held. *)
Theorem store_then_load (m : Machine) :
  wf m -> fetched m = Some OP_ZTR ->
  (fetched (SimStep m) = Some OP_RTX ->
   regX (SimStep (SimStep m)) = low_nibble (regZ m))
  /\ (fetched (SimStep m) = Some OP_RTY ->
      regY (SimStep (SimStep m)) = low_nibble (regZ m))
  /\ (fetched (SimStep m) = Some OP_RTZ ->
      regZ (SimStep (SimStep m)) = low_nibble (regZ m)).
Proof.
  intros Hwf Hop.
  pose proof (wf_locPtr m Hwf) as Hloc.
  pose proof (ZTR_nibble_written m Hwf Hop) as Hnib.
  assert (Hl : locPtr (SimStep m) = locPtr m) by (step_with Hop; reflexivity).
  pose proof (low_nibble_range (regZ m)) as Hr.
  assert (Hlow : low_nibble (low_nibble (regZ m)) = low_nibble (regZ m))
    by (unfold low_nibble at 1; now apply Z.mod_small).
  split; [| split]; intros Hnext; step_with Hnext;
    rewrite mask_low_nibble, low_nibble_u8, Hl, Hnib; exact Hlow.
Qed.

Lemma store_then_load_witness :
  wf (run 2 (boot prog_store_load))
  /\ fetched (run 2 (boot prog_store_load)) = Some OP_ZTR
  /\ fetched (SimStep (run 2 (boot prog_store_load))) = Some OP_RTX
  /\ regX (SimStep (SimStep (run 2 (boot prog_store_load)))) = 0xB.
Proof.
  assert (Hwf : wf (run 2 (boot prog_store_load)))
    by (apply run_wf, boot_wf; repeat constructor; unfold is_u8; cbn; lia).
  assert (Hop : fetched (run 2 (boot prog_store_load)) = Some OP_ZTR)
    by (vm_compute; reflexivity).
  assert (Hnext : fetched (SimStep (run 2 (boot prog_store_load))) = Some OP_RTX)
    by (vm_compute; reflexivity).
  split; [exact Hwf | split; [exact Hop | split; [exact Hnext |]]].
  exact (proj1 (store_then_load _ Hwf Hop) Hnext).
Defined.

Lemma low_half_value old imm :
  0 <= imm < 16 ->
  u8 (Z.lor (Z.land old 0xF0) imm) = 16 * high_nibble old + imm.
Proof.
  intros Hi. destruct (low_half_written old imm Hi) as [-> _].
  now rewrite land_F0, lor_nibbles.
Qed.

Lemma high_half_value old imm :
  0 <= imm < 16 ->
  u8 (Z.lor (Z.land old 0x0F) (Z.shiftl imm 4)) = 16 * imm + low_nibble old.
Proof.
  intros Hi. destruct (high_half_written old imm Hi) as [-> _].
  rewrite land_0F, shiftl_4. apply lor_nibbles', low_nibble_range.
Qed.

(** X8. WT1 [a] and WT2 [b] in two consecutive steps, in either order, leave
    [locPtr = 16 * a + b], whatever it was before. *)
Theorem loc_from_two_halves (m : Machine) (a b : Z) :
  (fetched m = Some OP_WT1 /\ fetch_imm m = a
   /\ fetched (SimStep m) = Some OP_WT2 /\ fetch_imm (SimStep m) = b)
  \/ (fetched m = Some OP_WT2 /\ fetch_imm m = b
      /\ fetched (SimStep m) = Some OP_WT1 /\ fetch_imm (SimStep m) = a) ->
  locPtr (SimStep (SimStep m)) = 16 * a + b.
Proof.
  intros [[Hop [Ha [Hop' Hb]]] | [Hop [Hb [Hop' Ha]]]];
    pose proof (fetch_imm_range m) as Hr;
    pose proof (fetch_imm_range (SimStep m)) as Hr';
    first [rewrite Ha in Hr; rewrite Hb in Hr' | rewrite Hb in Hr; rewrite Ha in Hr'].
  - assert (H1 : locPtr (SimStep m) = 16 * a + low_nibble (locPtr m))
      by (step_with Hop; rewrite Ha; now apply high_half_value).
    step_with Hop'. rewrite Hb, low_half_value, H1 by exact Hr'.
    rewrite high_nibble_join; [reflexivity | lia | apply low_nibble_range].
  - assert (H1 : locPtr (SimStep m) = 16 * high_nibble (locPtr m) + b)
      by (step_with Hop; rewrite Hb; now apply low_half_value).
    step_with Hop'. rewrite Ha, high_half_value, H1 by exact Hr'.
    rewrite low_nibble_join; [reflexivity | lia].
Qed.

Lemma loc_from_two_halves_witness :
  fetched (run 2 (boot prog_halves)) = Some OP_WT1
  /\ fetch_imm (run 2 (boot prog_halves)) = 0x9
  /\ fetched (SimStep (run 2 (boot prog_halves))) = Some OP_WT2
  /\ fetch_imm (SimStep (run 2 (boot prog_halves))) = 0xC
  /\ locPtr (SimStep (SimStep (run 2 (boot prog_halves)))) = 0x9C.
Proof.
  assert (H1 : fetched (run 2 (boot prog_halves)) = Some OP_WT1) by (vm_compute; reflexivity).
  assert (H2 : fetch_imm (run 2 (boot prog_halves)) = 0x9) by (vm_compute; reflexivity).
  assert (H3 : fetched (SimStep (run 2 (boot prog_halves))) = Some OP_WT2) by (vm_compute; reflexivity).
  assert (H4 : fetch_imm (SimStep (run 2 (boot prog_halves))) = 0xC) by (vm_compute; reflexivity).
  split; [exact H1 | split; [exact H2 | split; [exact H3 | split; [exact H4 |]]]].
  exact (loc_from_two_halves _ 0x9 0xC (or_introl (conj H1 (conj H2 (conj H3 H4))))).
Defined.

(** X9. PC1 [a] and PC2 [b] in either order, then JMP: the next instruction is
    fetched from address [16 * b + a]. *)
Theorem jump_target (m : Machine) (a b : Z) :
  (fetched m = Some OP_PC1 /\ fetch_imm m = a
   /\ fetched (SimStep m) = Some OP_PC2 /\ fetch_imm (SimStep m) = b)
  \/ (fetched m = Some OP_PC2 /\ fetch_imm m = b
      /\ fetched (SimStep m) = Some OP_PC1 /\ fetch_imm (SimStep m) = a) ->
  fetched (SimStep (SimStep m)) = Some OP_JMP ->
  pcPtr (SimStep (SimStep (SimStep m))) = 16 * b + a.
Proof.
  intros Hhalves Hjmp.
  assert (Htmp : tmpPcPtr (SimStep (SimStep m)) = 16 * b + a /\ 0 <= a < 16
                 /\ 0 <= b < 16).
  { destruct Hhalves as [[Hop [Ha [Hop' Hb]]] | [Hop [Hb [Hop' Ha]]]];
      pose proof (fetch_imm_range m) as Hr;
      pose proof (fetch_imm_range (SimStep m)) as Hr';
      first [rewrite Ha in Hr; rewrite Hb in Hr' | rewrite Hb in Hr; rewrite Ha in Hr'];
      (split; [| lia]).
    - assert (H1 : tmpPcPtr (SimStep m) = 16 * high_nibble (tmpPcPtr m) + a)
        by (step_with Hop; rewrite Ha; now apply low_half_value).
      step_with Hop'. rewrite Hb, high_half_value, H1 by exact Hr'.
      rewrite low_nibble_join; [reflexivity | lia].
    - assert (H1 : tmpPcPtr (SimStep m) = 16 * b + low_nibble (tmpPcPtr m))
        by (step_with Hop; rewrite Hb; now apply high_half_value).
      step_with Hop'. rewrite Ha, low_half_value, H1 by exact Hr'.
      rewrite high_nibble_join; [reflexivity | lia | apply low_nibble_range]. }
  destruct Htmp as [Htmp [Ha Hb]].
  destruct (JMP_step _ Hjmp) as [Hdec Hpc].
  rewrite Hpc, Hdec, Htmp.
  rewrite Z.add_mod_idemp_l by lia.
  replace (16 * b + a - 1 + 1) with (16 * b + a) by lia.
  apply Z.mod_small. lia.
Qed.

Lemma jump_target_witness :
  fetched (boot prog_jump') = Some OP_PC2
  /\ fetch_imm (boot prog_jump') = 0x1
  /\ fetched (SimStep (boot prog_jump')) = Some OP_PC1
  /\ fetch_imm (SimStep (boot prog_jump')) = 0x0
  /\ fetched (SimStep (SimStep (boot prog_jump'))) = Some OP_JMP
  /\ pcPtr (SimStep (SimStep (SimStep (boot prog_jump')))) = 0x10.
Proof.
  assert (H1 : fetched (boot prog_jump') = Some OP_PC2) by (vm_compute; reflexivity).
  assert (H2 : fetch_imm (boot prog_jump') = 0x1) by (vm_compute; reflexivity).
  assert (H3 : fetched (SimStep (boot prog_jump')) = Some OP_PC1) by (vm_compute; reflexivity).
  assert (H4 : fetch_imm (SimStep (boot prog_jump')) = 0x0) by (vm_compute; reflexivity).
  assert (H5 : fetched (SimStep (SimStep (boot prog_jump'))) = Some OP_JMP) by (vm_compute; reflexivity).
  split; [exact H1 | split; [exact H2 | split; [exact H3 | split; [exact H4 |]]]].
  split; [exact H5 |].
  exact (jump_target _ 0x0 0x1 (or_intror (conj H1 (conj H2 (conj H3 H4)))) H5).
Defined.

(** ** Arithmetic across nibbles *)

Lemma bit4_of_small sum :
  0 <= sum < 32 ->
  sum mod 16 + 16 * bool_to_u8 (Z.testbit sum 4) = sum.
Proof.
  intros Hs. destruct (Z.lt_ge_cases sum 16) as [Hlt | Hge].
  - rewrite Z.mod_small by lia.
    rewrite nibble_testbit_high by lia. cbn [bool_to_u8]. lia.
  - assert (Hr : exists r, sum = r + 1 * 16 /\ 0 <= r < 16)
      by (exists (sum - 16); lia).
    destruct Hr as [r [-> Hr]].
    rewrite Z.mod_add, Z.mod_small by lia.
    rewrite Z.testbit_odd, shiftr_4.
    rewrite Z.div_add, Z.div_small by lia.
    change (bool_to_u8 (Z.odd (0 + 1))) with 1. lia.
Qed.

Lemma carry_in_range m :
  0 <= (if useCarry m then bool_to_u8 (carry m) else 0) <= 1.
Proof. destruct (useCarry m), (carry m); cbn [bool_to_u8]; lia. Qed.

(** X10. With 4-bit operands ADD loses nothing: [regZ] and [carry] together
    hold the whole sum, [regZ + 16 * carry = X + Y + carry-in]. *)
Theorem ADD_is_exact (m : Machine) :
  0 <= regX m <= 15 -> 0 <= regY m <= 15 ->
  fetched m = Some OP_ADD ->
  regZ (SimStep m) + 16 * bool_to_u8 (carry (SimStep m))
  = regX m + regY m + (if useCarry m then bool_to_u8 (carry m) else 0).
Proof.
  intros Hx Hy Hop. destruct (ADD_step m Hop) as [-> ->].
  pose proof (carry_in_range m) as Hc.
  apply bit4_of_small. lia.
Qed.

Lemma ADD_is_exact_witness :
  0 <= regX (run 2 (boot prog_add)) <= 15
  /\ 0 <= regY (run 2 (boot prog_add)) <= 15
  /\ fetched (run 2 (boot prog_add)) = Some OP_ADD
  /\ regZ (SimStep (run 2 (boot prog_add)))
     + 16 * bool_to_u8 (carry (SimStep (run 2 (boot prog_add)))) = 16.
Proof.
  assert (Hx : 0 <= regX (run 2 (boot prog_add)) <= 15) by (vm_compute; split; discriminate).
  assert (Hy : 0 <= regY (run 2 (boot prog_add)) <= 15) by (vm_compute; split; discriminate).
  assert (Hop : fetched (run 2 (boot prog_add)) = Some OP_ADD) by (vm_compute; reflexivity).
  split; [exact Hx | split; [exact Hy | split; [exact Hop |]]].
  rewrite (ADD_is_exact _ Hx Hy Hop). vm_compute. reflexivity.
Defined.

(** X11. Two ADD steps add two-nibble numbers: the first without carry use on
    the low nibbles, the second with carry use on the high nibbles and the
    carry of the first.  The two results and the final carry hold the whole
    sum. *)
Theorem ADD_carry_chain (lo hi : Machine) :
  0 <= regX lo <= 15 -> 0 <= regY lo <= 15 ->
  0 <= regX hi <= 15 -> 0 <= regY hi <= 15 ->
  fetched lo = Some OP_ADD -> fetched hi = Some OP_ADD ->
  useCarry lo = false -> useCarry hi = true ->
  carry hi = carry (SimStep lo) ->
  regZ (SimStep lo) + 16 * regZ (SimStep hi)
  + 256 * bool_to_u8 (carry (SimStep hi))
  = (regX lo + 16 * regX hi) + (regY lo + 16 * regY hi).
Proof.
  intros Hxl Hyl Hxh Hyh Hopl Hoph Hul Huh Hc.
  destruct (ADD_step lo Hopl) as [Hzl Hcl].
  destruct (ADD_step hi Hoph) as [Hzh Hch].
  rewrite Hul in Hzl, Hcl. rewrite Huh, Hc, Hcl in Hzh, Hch.
  pose proof (bit4_of_small (regX lo + regY lo + 0) ltac:(lia)) as Hlo.
  set (c := bool_to_u8 (Z.testbit (regX lo + regY lo + 0) 4)) in *.
  assert (Hcr : 0 <= c <= 1) by (unfold c; destruct (Z.testbit _ 4); cbn; lia).
  pose proof (bit4_of_small (regX hi + regY hi + c) ltac:(lia)) as Hhi.
  rewrite Hzl, Hzh, Hch. lia.
Qed.

Lemma ADD_carry_chain_witness :
  fetched (run 2 (boot prog_add)) = Some OP_ADD
  /\ fetched (run 4 (boot prog_add)) = Some OP_ADD
  /\ carry (run 4 (boot prog_add)) = carry (SimStep (run 2 (boot prog_add)))
  /\ regZ (SimStep (run 2 (boot prog_add)))
     + 16 * regZ (SimStep (run 4 (boot prog_add)))
     + 256 * bool_to_u8 (carry (SimStep (run 4 (boot prog_add))))
     = 0xFF + 0x11.
Proof.
  assert (Hxl : 0 <= regX (run 2 (boot prog_add)) <= 15) by (vm_compute; split; discriminate).
  assert (Hyl : 0 <= regY (run 2 (boot prog_add)) <= 15) by (vm_compute; split; discriminate).
  assert (Hxh : 0 <= regX (run 4 (boot prog_add)) <= 15) by (vm_compute; split; discriminate).
  assert (Hyh : 0 <= regY (run 4 (boot prog_add)) <= 15) by (vm_compute; split; discriminate).
  assert (Hopl : fetched (run 2 (boot prog_add)) = Some OP_ADD) by (vm_compute; reflexivity).
  assert (Hoph : fetched (run 4 (boot prog_add)) = Some OP_ADD) by (vm_compute; reflexivity).
  assert (Hul : useCarry (run 2 (boot prog_add)) = false) by (vm_compute; reflexivity).
  assert (Huh : useCarry (run 4 (boot prog_add)) = true) by (vm_compute; reflexivity).
  assert (Hc : carry (run 4 (boot prog_add)) = carry (SimStep (run 2 (boot prog_add))))
    by (vm_compute; reflexivity).
  split; [exact Hopl | split; [exact Hoph | split; [exact Hc |]]].
  rewrite (ADD_carry_chain _ _ Hxl Hyl Hxh Hyh Hopl Hoph Hul Huh Hc).
  vm_compute. reflexivity.
Defined.

(** X12. With 4-bit operands SUB loses nothing either: [regZ] is the difference
    when [carry] comes out set, and the difference plus 16 when it comes
    out clear. *)
Theorem SUB_is_exact (m : Machine) :
  0 <= regX m <= 15 -> 0 <= regY m <= 15 ->
  fetched m = Some OP_SUB ->
  regZ (SimStep m)
  = regX m - (regY m + (if useCarry m then bool_to_u8 (carry m) else 0))
    + 16 * (if carry (SimStep m) then 0 else 1).
Proof.
  intros Hx Hy Hop. step_with Hop.
  pose proof (carry_in_range m) as Hc.
  set (s := regY m + (if useCarry m then bool_to_u8 (carry m) else 0)) in *.
  rewrite (u8_id s) by (unfold is_u8; lia).
  rewrite mask_low_nibble, low_nibble_u8. unfold low_nibble.
  rewrite Z.geb_leb. destruct (s <=? regX m) eqn:Hle.
  - apply Z.leb_le in Hle. rewrite Z.mod_small by lia. lia.
  - apply Z.leb_gt in Hle.
    replace (regX m - s) with (regX m - s + 16 + (-1) * 16) by lia.
    rewrite Z.mod_add, Z.mod_small by lia. lia.
Qed.

Lemma SUB_is_exact_witness :
  0 <= regX (run 2 (boot prog_sub)) <= 15
  /\ 0 <= regY (run 2 (boot prog_sub)) <= 15
  /\ fetched (run 2 (boot prog_sub)) = Some OP_SUB
  /\ regZ (SimStep (run 2 (boot prog_sub))) = 3 - 5 + 16.
Proof.
  assert (Hx : 0 <= regX (run 2 (boot prog_sub)) <= 15) by (vm_compute; split; discriminate).
  assert (Hy : 0 <= regY (run 2 (boot prog_sub)) <= 15) by (vm_compute; split; discriminate).
  assert (Hop : fetched (run 2 (boot prog_sub)) = Some OP_SUB) by (vm_compute; reflexivity).
  split; [exact Hx | split; [exact Hy | split; [exact Hop |]]].
  rewrite (SUB_is_exact _ Hx Hy Hop). vm_compute. reflexivity.
Defined.

(** ** The dirty flags and the driver loop *)

Lemma SimStep_core m m' : core m = core m' -> core (SimStep m) = core (SimStep m').
Proof.
  destruct m as [r a pc tmp loc x y z uc c rd gd sd].
  destruct m' as [r' a' pc' tmp' loc' x' y' z' uc' c' rd' gd' sd'].
  unfold core, registers. cbn [rom ram pcPtr tmpPcPtr locPtr regX regY regZ
                               useCarry carry].
  intros Heq. injection Heq as -> -> -> -> -> -> -> -> -> ->.
  unfold SimStep, fetch_op, fetch_imm. cbn [rom pcPtr].
  destruct (switch _) as [o |]; [destruct o |]; reflexivity.
Qed.

Lemma iteration_core m : core (iteration m) = core (SimStep m).
Proof.
  rewrite iteration_eq. generalize (SimStep m). intros s.
  destruct s; reflexivity.
Qed.

(** X13. The dirty flags never steer execution: machines that agree on
    everything but the flags still do so after any number of steps, and the
    driver loop's clearing of the flags changes nothing of what is
    computed. *)
Theorem dirty_flags_do_not_steer (n : nat) (m m' : Machine) :
  core m = core m' ->
  core (run n m) = core (run n m') /\ core (drive n m) = core (run n m').
Proof.
  revert m m'. induction n as [| n IH]; intros m m' Heq.
  - split; exact Heq.
  - rewrite drive_S. cbn [run]. split.
    + apply IH, SimStep_core, Heq.
    + apply IH. rewrite iteration_core. apply SimStep_core, Heq.
Qed.

Lemma dirty_flags_do_not_steer_witness :
  core (set_regsDirty false (boot prog_add)) = core (boot prog_add)
  /\ core (drive 5 (set_regsDirty false (boot prog_add)))
     = core (run 5 (boot prog_add)).
Proof.
  assert (Heq : core (set_regsDirty false (boot prog_add)) = core (boot prog_add))
    by reflexivity.
  split; [exact Heq | exact (proj2 (dirty_flags_do_not_steer 5 _ _ Heq))].
Defined.

Lemma iteration_flags m :
  regsDirty (iteration m) = false /\ screenDirty (iteration m) = false
  /\ ramDirty (iteration m) = false.
Proof. rewrite iteration_eq. generalize (SimStep m). intros s. repeat split. Qed.

(** A step that leaves [screenDirty] set leaves [ramDirty] set too, when
    that was so before the step. *)
Lemma SimStep_screenDirty_ramDirty m :
  (screenDirty m = true -> ramDirty m = true) ->
  screenDirty (SimStep m) = true -> ramDirty (SimStep m) = true.
Proof.
  intros Hinv. unfold SimStep.
  destruct (switch (fetch_op m)) as [o |]; [destruct o |]; globals;
    solve [exact Hinv | reflexivity].
Qed.

Lemma drive_screenDirty_ramDirty n m :
  ramDirty m = true ->
  screenDirty (drive n m) = true -> ramDirty (drive n m) = true.
Proof.
  destruct n as [| n]; [intros Hm _; exact Hm | intros _].
  rewrite drive_S.
  generalize (iteration_flags m). generalize (iteration m). clear m.
  induction n as [| n IH]; intros m [_ [Hsd _]].
  - cbn [drive]. rewrite Hsd. discriminate.
  - rewrite drive_S. apply IH, iteration_flags.
Qed.

(** X14. In the driver loop [UpdateScreen] is never called in vain: whenever a
    step of a booted program leaves [screenDirty] set, [ramDirty] is set as
    well, so [UpdateScreen] does not return early and draws its 8 rows. *)
Theorem UpdateScreen_draws_when_called (prog : list Z) (n : nat) :
  screenDirty (SimStep (drive n (boot prog))) = true ->
  exists grid,
    UpdateScreen (SimStep (drive n (boot prog))) = Some grid
    /\ length grid = 8%nat.
Proof.
  intros Hs.
  assert (Hinv : screenDirty (drive n (boot prog)) = true ->
                 ramDirty (drive n (boot prog)) = true)
    by (apply drive_screenDirty_ramDirty; reflexivity).
  pose proof (SimStep_screenDirty_ramDirty _ Hinv Hs) as Hram.
  unfold UpdateScreen. rewrite Hram. cbn [negb].
  eexists. split; [reflexivity |]. now rewrite length_fmap.
Qed.

Lemma UpdateScreen_draws_when_called_witness :
  screenDirty (SimStep (drive 2 (boot (prog_store 3)))) = true
  /\ exists grid,
       UpdateScreen (SimStep (drive 2 (boot (prog_store 3)))) = Some grid
       /\ length grid = 8%nat.
Proof.
  assert (Hs : screenDirty (SimStep (drive 2 (boot (prog_store 3)))) = true)
    by (vm_compute; reflexivity).
  split; [exact Hs | exact (UpdateScreen_draws_when_called _ 2 Hs)].
Defined.

(** ** What the screen shows *)

Lemma cell_bit v k : to_bool (Z.land (Z.shiftr v k) 0x1) = Z.testbit v k.
Proof.
  rewrite land_01, Zmod_odd, <- Z.testbit_odd.
  unfold to_bool. now destruct (Z.testbit v k).
Qed.

(** X15. The grid of [UpdateScreen]: the cell in row [r] (of 8) and column [c]
    (of 4) is lit exactly when bit [3 - c] of nibble [r / 2] of [ram] is
    set.  Each of the nibbles 0 to 3 fills two rows, its highest bit in the
    leftmost column. *)
Theorem UpdateScreen_cell (m : Machine) (r c : Z) :
  ramDirty m = true -> 0 <= r < 8 -> 0 <= c < 4 ->
  exists grid row,
    UpdateScreen m = Some grid
    /\ grid !! Z.to_nat r = Some row
    /\ row !! Z.to_nat c = Some (Z.testbit (ReadNibble (ram m) (r / 2)) (3 - c)).
Proof.
  intros Hd Hr Hc. unfold UpdateScreen. rewrite Hd. cbn [negb].
  eexists. eexists. split; [reflexivity |].
  assert (Hrow : screen_rows !! Z.to_nat r = Some r).
  { unfold screen_rows. rewrite lookup_seqZ_lt by lia. f_equal. lia. }
  assert (Hcol : seqZ 0 4 !! Z.to_nat c = Some c).
  { rewrite lookup_seqZ_lt by lia. f_equal. lia. }
  split.
  - rewrite list_lookup_fmap, Hrow. reflexivity.
  - unfold screen_cells. rewrite list_lookup_fmap, Hcol. cbn [fmap option_fmap option_map].
    rewrite cell_bit. unfold screen_addr.
    rewrite u8_id; [reflexivity |].
    unfold is_u8. split; [apply Z.div_pos | apply Z.div_lt_upper_bound]; lia.
Qed.

Lemma UpdateScreen_cell_witness :
  ramDirty (SimStep (run 2 (boot (prog_store 3)))) = true
  /\ 0 <= 7 < 8 /\ 0 <= 0 < 4
  /\ exists grid row,
       UpdateScreen (SimStep (run 2 (boot (prog_store 3)))) = Some grid
       /\ grid !! Z.to_nat 7 = Some row
       /\ row !! Z.to_nat 0
          = Some (Z.testbit
                    (ReadNibble (ram (SimStep (run 2 (boot (prog_store 3)))))
                                (7 / 2)) (3 - 0)).
Proof.
  assert (Hd : ramDirty (SimStep (run 2 (boot (prog_store 3)))) = true)
    by (vm_compute; reflexivity).
  assert (Hr : 0 <= 7 < 8) by lia.
  assert (Hc : 0 <= 0 < 4) by lia.
  split; [exact Hd | split; [exact Hr | split; [exact Hc |]]].
  exact (UpdateScreen_cell _ 7 0 Hd Hr Hc).
Defined.

(** ** Algebra of nibble writes *)

(** [WriteNibble] as one store of the byte it composes. *)
Lemma WriteNibble_store buf a v :
  WriteNibble buf a v
  = store buf (a / 2)
      (if a mod 2 =? 0
       then 16 * high_nibble (index buf (a / 2)) + low_nibble v
       else 16 * low_nibble v + low_nibble (index buf (a / 2))).
Proof.
  unfold WriteNibble. destruct (a mod 2 =? 0).
  - now rewrite land_F0, land_0F, lor_nibbles by apply low_nibble_range.
  - now rewrite !land_0F, shiftl_4, lor_nibbles' by apply low_nibble_range.
Qed.

Lemma store_store buf i x y : store (store buf i x) i y = store buf i y.
Proof. unfold store. apply list_insert_insert_eq. Qed.

Lemma store_commute buf i j x y :
  0 <= i -> 0 <= j -> i <> j ->
  store (store buf i x) j y = store (store buf j y) i x.
Proof.
  intros Hi Hj Hij. unfold store. apply list_insert_insert_ne. lia.
Qed.

Lemma store_same buf i :
  0 <= i -> (Z.to_nat i < length buf)%nat -> is_u8 (index buf i) ->
  store buf i (index buf i) = buf.
Proof.
  intros Hi Hlen Hb. unfold store. rewrite u8_id by exact Hb.
  apply list_insert_id. unfold index.
  now apply list_lookup_lookup_total_lt.
Qed.

Lemma low_nibble_idem z : low_nibble (low_nibble z) = low_nibble z.
Proof.
  unfold low_nibble at 1. apply Z.mod_small, low_nibble_range.
Qed.

(** X16. The last write to a nibble wins, and only the low four bits of the
    value written count. *)
Theorem WriteNibble_last_write_wins (buf : list Z) (a v w : Z) :
  length buf = 128%nat -> is_u8 a ->
  WriteNibble (WriteNibble buf a v) a w = WriteNibble buf a w
  /\ WriteNibble buf a w = WriteNibble buf a (w mod 16).
Proof.
  intros Hlen Ha. destruct (addr_in_bounds buf a Hlen Ha) as [Hi Hin].
  pose proof (high_nibble_range (index buf (a / 2))) as Hh.
  pose proof (low_nibble_range (index buf (a / 2))) as Hl.
  pose proof (low_nibble_range v) as Hv.
  split.
  - rewrite (WriteNibble_store (WriteNibble buf a v)).
    rewrite WriteNibble_byte by assumption.
    rewrite (WriteNibble_store buf a v), store_store.
    rewrite (WriteNibble_store buf a w). f_equal.
    destruct (a mod 2 =? 0).
    + now rewrite high_nibble_join.
    + now rewrite low_nibble_join.
  - rewrite !WriteNibble_store. fold (low_nibble w).
    now rewrite low_nibble_idem.
Qed.

Lemma WriteNibble_last_write_wins_witness :
  length (replicate 128 0xA5) = 128%nat /\ is_u8 5
  /\ WriteNibble (WriteNibble (replicate 128 0xA5) 5 9) 5 0x3C
     = WriteNibble (replicate 128 0xA5) 5 0xC.
Proof.
  assert (Hlen : length (replicate 128 0xA5) = 128%nat) by reflexivity.
  assert (Ha : is_u8 5) by (unfold is_u8; lia).
  destruct (WriteNibble_last_write_wins (replicate 128 0xA5) 5 9 0x3C Hlen Ha)
    as [Hlast Hmask].
  split; [exact Hlen | split; [exact Ha |]].
  rewrite Hlast. exact Hmask.
Defined.

(** X17. Writing back the nibble just read changes nothing in a buffer of
    bytes. *)
Theorem WriteNibble_read_back (buf : list Z) (a : Z) :
  length buf = 128%nat -> Forall is_u8 buf -> is_u8 a ->
  WriteNibble buf a (ReadNibble buf a) = buf.
Proof.
  intros Hlen Hbytes Ha. destruct (addr_in_bounds buf a Hlen Ha) as [Hi Hin].
  pose proof (index_is_u8 buf (a / 2) Hbytes Hin) as Hb.
  rewrite WriteNibble_store.
  set (b := index buf (a / 2)) in *.
  assert (Hval : (if a mod 2 =? 0
                  then 16 * high_nibble b + low_nibble (ReadNibble buf a)
                  else 16 * low_nibble (ReadNibble buf a) + low_nibble b) = b).
  { destruct (a mod 2 =? 0) eqn:Hpar.
    - apply Z.eqb_eq in Hpar. rewrite ReadNibble_even by exact Hpar.
      fold b. rewrite low_nibble_idem. symmetry. now apply byte_nibbles.
    - apply Z.eqb_neq in Hpar. rewrite ReadNibble_odd by exact Hpar.
      fold b. unfold low_nibble at 1.
      rewrite Z.mod_small by apply high_nibble_range.
      symmetry. now apply byte_nibbles. }
  rewrite Hval. now apply store_same.
Qed.

Lemma WriteNibble_read_back_witness :
  length (replicate 128 0xA5) = 128%nat /\ Forall is_u8 (replicate 128 0xA5)
  /\ is_u8 5
  /\ WriteNibble (replicate 128 0xA5) 5 (ReadNibble (replicate 128 0xA5) 5)
     = replicate 128 0xA5.
Proof.
  assert (Hlen : length (replicate 128 0xA5) = 128%nat) by reflexivity.
  assert (Hb : Forall is_u8 (replicate 128 0xA5))
    by (apply Forall_replicate; unfold is_u8; lia).
  assert (Ha : is_u8 5) by (unfold is_u8; lia).
  split; [exact Hlen | split; [exact Hb | split; [exact Ha |]]].
  exact (WriteNibble_read_back _ 5 Hlen Hb Ha).
Defined.

(** X18. Writes to two different nibbles can be made in either order, also when
    the two nibbles share a byte. *)
Theorem WriteNibble_commute (buf : list Z) (a b v w : Z) :
  length buf = 128%nat -> is_u8 a -> is_u8 b -> a <> b ->
  WriteNibble (WriteNibble buf a v) b w = WriteNibble (WriteNibble buf b w) a v.
Proof.
  intros Hlen Ha Hb Hab.
  destruct (addr_in_bounds buf a Hlen Ha) as [Hi Hin].
  destruct (addr_in_bounds buf b Hlen Hb) as [Hj Hjn].
  pose proof (high_nibble_range (index buf (a / 2))) as Hh.
  pose proof (low_nibble_range (index buf (a / 2))) as Hl.
  pose proof (low_nibble_range v) as Hv.
  pose proof (low_nibble_range w) as Hw.
  rewrite (WriteNibble_store (WriteNibble buf a v) b w).
  rewrite (WriteNibble_store (WriteNibble buf b w) a v).
  destruct (Z.eq_dec (b / 2) (a / 2)) as [Hsame | Hdiff].
  - pose proof (Z.div_mod a 2 ltac:(lia)) as Hda.
    pose proof (Z.div_mod b 2 ltac:(lia)) as Hdb.
    pose proof (Z.mod_pos_bound a 2 ltac:(lia)) as Hma.
    pose proof (Z.mod_pos_bound b 2 ltac:(lia)) as Hmb.
    pose proof (WriteNibble_byte buf a v Hi Hin) as Hbyte_a.
    pose proof (WriteNibble_byte buf b w Hj Hjn) as Hbyte_b.
    rewrite Hsame in Hbyte_b |- *. rewrite Hbyte_a, Hbyte_b.
    rewrite (WriteNibble_store buf a v), (WriteNibble_store buf b w), Hsame.
    rewrite !store_store. f_equal.
    destruct (Z.eqb_spec (a mod 2) 0) as [Hpa | Hpa],
      (Z.eqb_spec (b mod 2) 0) as [Hpb | Hpb]; try lia.
    + now rewrite low_nibble_join, high_nibble_join.
    + now rewrite low_nibble_join, high_nibble_join.
  - rewrite (WriteNibble_other_byte buf a v (b / 2)) by assumption.
    rewrite (WriteNibble_other_byte buf b w (a / 2)) by (try assumption; lia).
    rewrite (WriteNibble_store buf a v), (WriteNibble_store buf b w).
    apply store_commute; (assumption || lia).
Qed.

Lemma WriteNibble_commute_witness :
  length (replicate 128 0xA5) = 128%nat /\ is_u8 4 /\ is_u8 5 /\ 4 <> 5
  /\ WriteNibble (WriteNibble (replicate 128 0xA5) 4 1) 5 2
     = WriteNibble (WriteNibble (replicate 128 0xA5) 5 2) 4 1.
Proof.
  assert (Hlen : length (replicate 128 0xA5) = 128%nat) by reflexivity.
  assert (Ha : is_u8 4) by (unfold is_u8; lia).
  assert (Hb : is_u8 5) by (unfold is_u8; lia).
  assert (Hab : 4 <> 5) by discriminate.
  split; [exact Hlen | split; [exact Ha | split; [exact Hb | split; [exact Hab |]]]].
  exact (WriteNibble_commute _ 4 5 1 2 Hlen Ha Hb Hab).
Defined.

(** ** Disassembly *)

Lemma switch_total q :
  0 <= q < 16 -> exists o, switch q = Some o /\ Opcodes_value o = q.
Proof.
  intros Hq.
  assert (Hcases : q = 0 \/ q = 1 \/ q = 2 \/ q = 3 \/ q = 4 \/ q = 5 \/ q = 6
                   \/ q = 7 \/ q = 8 \/ q = 9 \/ q = 10 \/ q = 11 \/ q = 12
                   \/ q = 13 \/ q = 14 \/ q = 15) by lia.
  repeat (destruct Hcases as [-> | Hcases]; [eexists; split; reflexivity |]).
  subst q. eexists; split; reflexivity.
Qed.

(** The opcode field that [DecodeOpCode] extracts. *)
Lemma decode_field b : u8 (Z.shiftr (Z.land b 0xF0) 4) = high_nibble b.
Proof.
  rewrite land_F0, shiftr_4.
  rewrite Z.mul_comm, Z.div_mul by lia.
  apply u8_id, nibble_is_u8, high_nibble_range.
Qed.

(** The opcode field that [SimStep] extracts from a byte. *)
Lemma fetch_field b : is_u8 b -> u8 (Z.shiftr b 4) = high_nibble b.
Proof.
  unfold is_u8. intros Hb. rewrite shiftr_4.
  assert (Hq : 0 <= b / 16 < 16)
    by (split; [apply Z.div_pos | apply Z.div_lt_upper_bound]; lia).
  rewrite u8_id by (unfold is_u8; lia).
  unfold high_nibble. symmetry. now apply Z.mod_small.
Qed.

Lemma mnemonic_inj o o' : mnemonic o = mnemonic o' -> o = o'.
Proof. destruct o, o'; intros H; first [reflexivity | discriminate H]. Qed.

(** X19. [DecodeOpCode] never falls through to "ERR": whatever the buffer holds
    at [addr], the result is the mnemonic of the opcode numbered by the
    high nibble of that entry; and different opcodes have different
    mnemonics. *)
Theorem DecodeOpCode_total (buff : list Z) (addr : Z) :
  exists o,
    DecodeOpCode buff addr = mnemonic o
    /\ Opcodes_value o = high_nibble (index buff addr)
    /\ DecodeOpCode buff addr <> "ERR"%string
    /\ (forall o', mnemonic o' = DecodeOpCode buff addr -> o' = o).
Proof.
  unfold DecodeOpCode. rewrite decode_field.
  destruct (switch_total _ (high_nibble_range (index buff addr)))
    as [o [Hsw Hval]].
  exists o. rewrite Hsw. split; [reflexivity | split; [exact Hval | split]].
  - destruct o; discriminate.
  - intros o'. apply mnemonic_inj.
Qed.

Lemma DecodeOpCode_fetched m o :
  wf m -> fetched m = Some o -> DecodeOpCode (rom m) (pcPtr m) = mnemonic o.
Proof.
  intros Hwf Hop. unfold DecodeOpCode. rewrite decode_field.
  unfold fetched, fetch_op in Hop.
  rewrite fetch_field in Hop.
  - now rewrite Hop.
  - apply index_is_u8; [apply Hwf |].
    rewrite (wf_rom_length m Hwf). pose proof (wf_pcPtr m Hwf) as Hpc.
    unfold is_u8 in Hpc. lia.
Qed.

(** X20. The disassembler and the simulator decode alike: at the program
    counter [DecodeOpCode] names the opcode that the next [SimStep]
    executes. *)
Theorem DecodeOpCode_names_next_opcode (m : Machine) (o : Opcodes) :
  wf m -> fetched m = Some o ->
  DecodeOpCode (rom m) (pcPtr m) = mnemonic o.
Proof. apply DecodeOpCode_fetched. Qed.

Lemma DecodeOpCode_names_next_opcode_witness :
  wf (run 2 (boot prog_jump))
  /\ fetched (run 2 (boot prog_jump)) = Some OP_JMP
  /\ DecodeOpCode (rom (run 2 (boot prog_jump))) (pcPtr (run 2 (boot prog_jump)))
     = "JMP"%string.
Proof.
  assert (Hwf : wf (run 2 (boot prog_jump)))
    by (apply run_wf, boot_wf; repeat constructor; unfold is_u8; cbn; lia).
  assert (Hop : fetched (run 2 (boot prog_jump)) = Some OP_JMP)
    by (vm_compute; reflexivity).
  split; [exact Hwf | split; [exact Hop |]].
  exact (DecodeOpCode_names_next_opcode _ _ Hwf Hop).
Defined.

(** One round of the loop of [UpdateDisassembly]. *)
Lemma UpdateDisassembly_elem y m l :
  l ∈ UpdateDisassembly y m <->
  exists offset,
    - Z.quot (y - 2) 2 <= offset <= Z.quot (y - 2) 2
    /\ 0 < cursor_row y + offset < y - 1
    /\ 0 <= pcPtr m + offset < 256
    /\ l = mkDisLine (cursor_row y + offset)
                     (if pcPtr m =? pcPtr m + offset then 3 else 2)
                     (pcPtr m + offset)
                     (DecodeOpCode (rom m) (pcPtr m + offset))
                     (Z.land (index (rom m) (pcPtr m + offset)) 0xF).
Proof.
  unfold UpdateDisassembly, cursor_row. change (Z.of_nat sizeof_rom) with 256.
  rewrite list_elem_of_join. split.
  - intros [ls [Hl Hls]]. apply list_elem_of_fmap in Hls.
    destruct Hls as [offset [-> Hoff]]. apply elem_of_seqZ in Hoff.
    exists offset.
    destruct (Z.leb_spec (Z.quot y 2 + offset) 0);
      destruct (Z.geb_spec (Z.quot y 2 + offset) (y - 1));
      cbn [orb] in Hl; try (apply elem_of_nil in Hl; contradiction).
    destruct (Z.ltb_spec (pcPtr m + offset) 0);
      destruct (Z.geb_spec (pcPtr m + offset) 256);
      cbn [orb] in Hl; try (apply elem_of_nil in Hl; contradiction).
    apply list_elem_of_singleton in Hl. repeat split; try lia. exact Hl.
  - intros [offset [Hoff [Hline [Haddr ->]]]].
    eexists. split; [| apply list_elem_of_fmap; exists offset; split;
                       [reflexivity | apply elem_of_seqZ; lia]].
    cbv beta zeta.
    destruct (Z.leb_spec (Z.quot y 2 + offset) 0); [lia |].
    destruct (Z.geb_spec (Z.quot y 2 + offset) (y - 1)); [lia |].
    destruct (Z.ltb_spec (pcPtr m + offset) 0); [lia |].
    destruct (Z.geb_spec (pcPtr m + offset) 256); [lia |].
    cbn [orb]. apply list_elem_of_singleton. reflexivity.
Qed.

(** X21. Every line that [UpdateDisassembly] prints lies inside the box of the
    window, shows an address of [rom] between 0 and 255 (addresses are not
    wrapped around), sits as far from the cursor row as its address is from
    [pcPtr], is indented by one column exactly when it is the line of
    [pcPtr], and shows the mnemonic and the low nibble of the byte at its
    address. *)
Theorem UpdateDisassembly_lines (y : Z) (m : Machine) (l : DisLine) :
  l ∈ UpdateDisassembly y m ->
  0 < dis_line l < y - 1
  /\ 0 <= dis_addr l <= 255
  /\ dis_addr l - pcPtr m = dis_line l - cursor_row y
  /\ dis_col l = (if dis_addr l =? pcPtr m then 3 else 2)
  /\ dis_op l = DecodeOpCode (rom m) (dis_addr l)
  /\ dis_imm l = low_nibble (index (rom m) (dis_addr l)).
Proof.
  intros Hl. apply UpdateDisassembly_elem in Hl.
  destruct Hl as [offset [Hoff [Hline [Haddr ->]]]].
  cbn [dis_line dis_col dis_addr dis_op dis_imm].
  repeat split; try lia.
  - now rewrite (Z.eqb_sym (pcPtr m + offset)).
  - change 0xF with 0x0F. apply land_0F.
Qed.

Lemma UpdateDisassembly_lines_witness :
  mkDisLine 4 2 3 "NOP" 0 ∈ UpdateDisassembly 7 (run 2 (boot prog_jump))
  /\ 0 < 4 < 7 - 1
  /\ 3 - pcPtr (run 2 (boot prog_jump)) = 4 - cursor_row 7.
Proof.
  assert (Hin : mkDisLine 4 2 3 "NOP" 0
                ∈ UpdateDisassembly 7 (run 2 (boot prog_jump))).
  { apply UpdateDisassembly_elem. exists 1.
    split; [vm_compute; split; discriminate |].
    split; [vm_compute; split; reflexivity |].
    split; [vm_compute; split; [discriminate | reflexivity] |].
    vm_compute. reflexivity. }
  destruct (UpdateDisassembly_lines _ _ _ Hin) as [Hline [_ [Hal _]]].
  split; [exact Hin | split; [exact Hline | exact Hal]].
Defined.

(** X22. In a window of at least 3 lines the line on the cursor row shows the
    instruction that the next [SimStep] executes: its address [pcPtr], the
    mnemonic of the opcode fetched, and the immediate fetched. *)
Theorem UpdateDisassembly_cursor_line (y : Z) (m : Machine) (o : Opcodes) :
  wf m -> 3 <= y -> fetched m = Some o ->
  mkDisLine (cursor_row y) 3 (pcPtr m) (mnemonic o) (fetch_imm m)
  ∈ UpdateDisassembly y m.
Proof.
  intros Hwf Hy Hop. apply UpdateDisassembly_elem. exists 0.
  pose proof (wf_pcPtr m Hwf) as Hpc. unfold is_u8 in Hpc.
  unfold cursor_row.
  rewrite !Z.quot_div_nonneg by lia.
  assert (Hhalf : 0 <= (y - 2) / 2) by (apply Z.div_pos; lia).
  assert (Hrow : 0 < y / 2 < y - 1).
  { split.
    - apply Z.div_str_pos. lia.
    - apply Z.div_lt_upper_bound; lia. }
  rewrite !Z.add_0_r, Z.eqb_refl.
  split; [lia | split; [lia | split; [lia |]]].
  f_equal.
  - symmetry. now apply DecodeOpCode_fetched.
  - unfold fetch_imm. apply u8_id, nibble_is_u8.
    change 0xF with 0x0F. rewrite land_0F. apply low_nibble_range.
Qed.

Lemma UpdateDisassembly_cursor_line_witness :
  wf (run 2 (boot prog_jump)) /\ 3 <= 7
  /\ fetched (run 2 (boot prog_jump)) = Some OP_JMP
  /\ mkDisLine 3 3 2 "JMP" 0 ∈ UpdateDisassembly 7 (run 2 (boot prog_jump)).
Proof.
  assert (Hwf : wf (run 2 (boot prog_jump)))
    by (apply run_wf, boot_wf; repeat constructor; unfold is_u8; cbn; lia).
  assert (Hy : 3 <= 7) by lia.
  assert (Hop : fetched (run 2 (boot prog_jump)) = Some OP_JMP)
    by (vm_compute; reflexivity).
  split; [exact Hwf | split; [exact Hy | split; [exact Hop |]]].
  exact (UpdateDisassembly_cursor_line 7 _ _ Hwf Hy Hop).
Defined.

(** ** The program image *)

Lemma load_rom_head prog i :
  (i < 255 `min` length prog)%nat -> load_rom prog !! i = prog !! i.
Proof.
  intros Hi. unfold load_rom.
  destruct (fread_spec (rom initial) 255 prog ltac:(cbn; lia)) as [_ [Htake _]].
  change (sizeof_rom - 1)%nat with 255%nat.
  rewrite <- (lookup_take_lt _ (255 `min` length prog)) by exact Hi.
  rewrite Htake. now apply lookup_take_lt.
Qed.

Lemma load_rom_tail prog i :
  (255 `min` length prog <= i < 256)%nat -> load_rom prog !! i = Some 0.
Proof.
  intros Hi. unfold load_rom.
  destruct (fread_spec (rom initial) 255 prog ltac:(cbn; lia)) as [_ [_ Hdrop]].
  change (sizeof_rom - 1)%nat with 255%nat.
  replace i with (255 `min` length prog + (i - 255 `min` length prog))%nat by lia.
  rewrite <- lookup_drop, Hdrop, lookup_drop.
  cbn [initial rom]. apply lookup_replicate_2. lia.
Qed.

(** X23. The machine booted with [prog] holds the first 255 bytes of [prog] at
    the start of [rom] and zero in the rest.  A step whose [pcPtr] points
    past the bytes read executes NOP with immediate 0; address 255 is such
    an address for every program. *)
Theorem past_the_program_is_NOP (prog : list Z) (m : Machine) (i : nat) :
  rom m = rom (boot prog) ->
  ((i < 255 `min` length prog)%nat -> rom m !! i = prog !! i)
  /\ ((255 `min` length prog <= i < 256)%nat ->
      rom m !! i = Some 0
      /\ (pcPtr m = Z.of_nat i -> fetched m = Some OP_NOP /\ fetch_imm m = 0))
  /\ (pcPtr m = 255 -> fetched m = Some OP_NOP).
Proof.
  intros Hrom.
  assert (Hzero : forall j, (255 `min` length prog <= j < 256)%nat ->
                            pcPtr m = Z.of_nat j ->
                            index (rom m) (pcPtr m) = 0).
  { intros j Hj Hpc. unfold index. rewrite Hpc, Nat2Z.id.
    apply list_lookup_total_correct. rewrite Hrom. now apply load_rom_tail. }
  split; [| split].
  - intros Hi. rewrite Hrom. now apply load_rom_head.
  - intros Hi. split; [rewrite Hrom; now apply load_rom_tail |].
    intros Hpc. unfold fetched, fetch_op, fetch_imm.
    rewrite (Hzero i Hi Hpc). split; reflexivity.
  - intros Hpc. unfold fetched, fetch_op.
    rewrite (Hzero 255%nat); [reflexivity | lia | exact Hpc].
Qed.

Lemma past_the_program_is_NOP_witness :
  rom (run 3 (boot prog_sub)) = rom (boot prog_sub)
  /\ rom (run 3 (boot prog_sub)) !! 2%nat = Some 0x20
  /\ fetched (run 3 (boot prog_sub)) = Some OP_NOP.
Proof.
  assert (Hrom : rom (run 3 (boot prog_sub)) = rom (boot prog_sub))
    by (vm_compute; reflexivity).
  destruct (past_the_program_is_NOP prog_sub _ 2 Hrom) as [Hhead _].
  destruct (past_the_program_is_NOP prog_sub _ 3 Hrom) as [_ [Htail _]].
  split; [exact Hrom | split].
  - rewrite Hhead by (cbn; lia). reflexivity.
  - apply Htail; [cbn; lia | vm_compute; reflexivity].
Defined.

(** ** The start of [main] *)

Section MainProperties.

Variable sscanf_d : string -> option Z.
Variable stdout_line_buffered : bool.

(** What a completed argument loop tells about the arguments. *)
Lemma parse_args_completed args o out o' :
  parse_args sscanf_d args o = (out, inr o') ->
  out = []
  /\ (0 <= delayTime o -> 0 <= delayTime o')
  /\ (stepMode o' = true <-> stepMode o = true \/ "--step"%string ∈ args)
  /\ "--help"%string ∉ args.
Proof.
  revert o. induction args as [| arg rest IH]; intros o Hp; cbn [parse_args] in Hp.
  - injection Hp as <- <-. repeat split; try tauto.
    + intros [H | H]; [exact H | now apply elem_of_nil in H].
    + apply not_elem_of_nil.
  - destruct (String.eqb_spec arg "--help") as [-> | Hhelp]; [discriminate |].
    assert (Hcons : forall o1,
               parse_args sscanf_d rest o1 = (out, inr o') ->
               (0 <= delayTime o -> 0 <= delayTime o1) ->
               (stepMode o1 = true <->
                stepMode o = true \/ arg = "--step"%string) ->
               out = []
               /\ (0 <= delayTime o -> 0 <= delayTime o')
               /\ (stepMode o' = true <->
                   stepMode o = true \/ "--step"%string ∈ arg :: rest)
               /\ "--help"%string ∉ arg :: rest).
    { intros o1 Hrest Hd Hs. destruct (IH o1 Hrest) as [-> [Hd' [Hs' Hh]]].
      split; [reflexivity | split; [tauto | split]].
      - rewrite Hs', Hs, elem_of_cons. split; intros; intuition congruence.
      - rewrite not_elem_of_cons. split; [congruence | exact Hh]. }
    destruct (String.eqb_spec arg "--step") as [Hstep | Hstep].
    + destruct (is_delay arg).
      * destruct (sscanf_d (skip_8 arg)) as [v |]; [| discriminate].
        cbn [delayTime stepMode] in Hp.
        destruct (Z.ltb_spec v 0); [discriminate |].
        apply (Hcons _ Hp); cbn [delayTime stepMode]; [lia | tauto].
      * apply (Hcons _ Hp); cbn [delayTime stepMode]; tauto.
    + destruct (is_delay arg).
      * destruct (sscanf_d (skip_8 arg)) as [v |]; [| discriminate].
        cbn [delayTime stepMode] in Hp.
        destruct (Z.ltb_spec v 0); [discriminate |].
        apply (Hcons _ Hp); cbn [delayTime stepMode]; [lia | tauto].
      * apply (Hcons _ Hp); tauto.
Qed.

(** Arguments that the loop has passed are no longer looked at. *)
Lemma parse_args_app pre rest o out o' :
  parse_args sscanf_d pre o = (out, inr o') ->
  parse_args sscanf_d (pre ++ rest) o = parse_args sscanf_d rest o'.
Proof.
  revert o. induction pre as [| arg pre IH]; intros o Hp;
    cbn [parse_args app] in *.
  - now injection Hp as _ ->.
  - destruct (String.eqb arg "--help"); [discriminate |].
    destruct (is_delay arg).
    + destruct (sscanf_d (skip_8 arg)) as [v |]; [| discriminate].
      destruct (delayTime _ <? 0); [discriminate |]. now apply IH.
    + now apply IH.
Qed.

(** X24. When [main] gets as far as the simulator, the file opened was its first
    argument, whatever that argument is, and it was not empty; [rom] holds
    its first 255 bytes; the delay is not negative; step mode is on exactly
    when "--step" was among the arguments; and "--help" was not. *)
Theorem main_start_started
    (argv : list string) (fopen : string -> option (list Z))
    (out : list Output) (image : list Z) (o : Options) :
  main_start sscanf_d stdout_line_buffered argv fopen = (out, Started image o) ->
  (exists content,
      fopen (nth 1 argv ""%string) = Some content
      /\ content <> [] /\ image = load_rom content)
  /\ 0 <= delayTime o
  /\ (stepMode o = true <-> "--step"%string ∈ tail argv)
  /\ "--help"%string ∉ tail argv.
Proof.
  unfold main_start. intros Hm.
  destruct (parse_args sscanf_d (tail argv) default_options)
    as [out0 [status | o0]] eqn:Hp; [discriminate |].
  destruct (length argv <? 2)%nat; [discriminate |].
  destruct (parse_args_completed _ _ _ _ Hp) as [-> [Hd [Hs Hh]]].
  destruct (fopen (nth 1 argv ""%string)) as [content |] eqn:Hf.
  - cbn [load] in Hm. unfold load_rom.
    destruct (fread (rom initial) (sizeof_rom - 1) content)
      as [rom' readBytes] eqn:Hread.
    destruct (readBytes <=? 0)%nat eqn:Hle; [discriminate |].
    injection Hm as _ <- <-.
    split; [| split; [apply Hd; cbn; lia | split; [| exact Hh]]].
    + exists content.
      split; [reflexivity | split; [| unfold load_rom; now rewrite Hread]].
      intros ->. cbn in Hread. injection Hread as _ <-. discriminate.
    + rewrite Hs. cbn [stepMode default_options]. intuition discriminate.
  - cbn [load] in Hm. discriminate.
Qed.

(** X25. "--help" ends [main] with status 0 and the usage text, before any file
    is opened, when the arguments before it got through the loop. *)
Theorem help_exits_with_0
    (argv0 : string) (pre post : list string) (o : Options)
    (fopen : string -> option (list Z)) :
  parse_args sscanf_d pre default_options = ([], inr o) ->
  main_start sscanf_d stdout_line_buffered
             (argv0 :: pre ++ "--help"%string :: post) fopen
  = (usage, Exited 0).
Proof.
  intros Hp. unfold main_start. cbn [tail].
  rewrite (parse_args_app _ _ _ _ _ Hp). reflexivity.
Qed.

(** X26. When [main] returns before the simulator starts, the status is 0
    only for "--help"; any other return has status 1 and a diagnostic as
    the last line printed, which is one of four: a missing file gives no
    return at all (see [load]). *)
Theorem main_start_exit_status
    (argv : list string) (fopen : string -> option (list Z))
    (out : list Output) (status : Z) :
  main_start sscanf_d stdout_line_buffered argv fopen = (out, Exited status) ->
  (status = 0 /\ out = usage /\ "--help"%string ∈ tail argv)
  \/ (status = 1
      /\ exists d, last out = Some (Printf d)
         /\ d ∈ ["Invalid delay value!"; "Delay can't be negative!";
                 "No program passed in!"; "Program is empty!"]%string).
Proof.
  unfold main_start. intros Hm.
  assert (Hloop : forall args o0 out0 s,
             parse_args sscanf_d args o0 = (out0, inl s) ->
             (s = 0 /\ out0 = usage /\ "--help"%string ∈ args)
             \/ (s = 1
                 /\ exists d, last out0 = Some (Printf d)
                    /\ d ∈ ["Invalid delay value!"; "Delay can't be negative!";
                            "No program passed in!"; "Program is empty!"]%string)).
  { induction args as [| arg rest IH]; intros o0 out0 s Hp;
      cbn [parse_args] in Hp; [discriminate |].
    destruct (String.eqb_spec arg "--help") as [-> | Hhelp].
    - injection Hp as <- <-. left. repeat split. apply elem_of_cons. now left.
    - assert (Hrest : forall o1, parse_args sscanf_d rest o1 = (out0, inl s) ->
                 (s = 0 /\ out0 = usage /\ "--help"%string ∈ arg :: rest)
                 \/ (s = 1
                     /\ exists d, last out0 = Some (Printf d)
                        /\ d ∈ ["Invalid delay value!"; "Delay can't be negative!";
                                "No program passed in!";
                                "Program is empty!"]%string)).
      { intros o1 Hr. destruct (IH _ _ _ Hr) as [[-> [-> Hin]] | Hbad].
        - left. repeat split. apply elem_of_cons. now right.
        - right. exact Hbad. }
      destruct (is_delay arg); [| now apply (Hrest _ Hp)].
      destruct (sscanf_d (skip_8 arg)) as [v |].
      + destruct (delayTime _ <? 0); [| now apply (Hrest _ Hp)].
        injection Hp as <- <-. right. split; [reflexivity |].
        eexists. split; [reflexivity |]. rewrite !elem_of_cons; auto 10.
      + injection Hp as <- <-. right. split; [reflexivity |].
        eexists. split; [reflexivity |]. rewrite !elem_of_cons; auto 10. }
  destruct (parse_args sscanf_d (tail argv) default_options)
    as [out0 [s | o0]] eqn:Hp.
  - injection Hm as <- <-. now apply (Hloop _ _ _ _ Hp).
  - destruct (parse_args_completed _ _ _ _ Hp) as [-> _].
    destruct (length argv <? 2)%nat.
    + injection Hm as <- <-. right. split; [reflexivity |].
      eexists. split; [reflexivity |]. rewrite !elem_of_cons; auto 10.
    + destruct (fopen (nth 1 argv ""%string)) as [content |]; cbn [load] in Hm.
      * destruct (fread (rom initial) (sizeof_rom - 1) content)
          as [rom' readBytes].
        destruct (readBytes <=? 0)%nat; [| discriminate].
        injection Hm as <- <-. right. split; [reflexivity |].
        eexists. split; [reflexivity |]. rewrite !elem_of_cons; auto 10.
      * discriminate.
Qed.

End MainProperties.

Lemma main_start_started_witness :
  main_start sample_sscanf true
             ["pbpu"; "prog.bin"; "--step"; "--delay=250"]%string sample_fopen
  = ([PrintfRead 5], Started (load_rom prog_add) (mkOptions true 250))
  /\ 0 <= delayTime (mkOptions true 250)
  /\ "--help"%string ∉ tail ["pbpu"; "prog.bin"; "--step"; "--delay=250"]%string.
Proof.
  assert (Hm : main_start sample_sscanf true
                 ["pbpu"; "prog.bin"; "--step"; "--delay=250"]%string sample_fopen
               = ([PrintfRead 5], Started (load_rom prog_add) (mkOptions true 250)))
    by (vm_compute; reflexivity).
  destruct (main_start_started _ _ _ _ _ _ _ Hm) as [_ [Hd [_ Hh]]].
  split; [exact Hm | split; [exact Hd | exact Hh]].
Defined.

Lemma help_exits_with_0_witness :
  parse_args sample_sscanf ["--step"; "--delay=250"]%string default_options
  = ([], inr (mkOptions true 250))
  /\ main_start sample_sscanf true
                ("pbpu" :: ["--step"; "--delay=250"] ++ "--help" :: ["x"])%string
                sample_fopen
     = (usage, Exited 0).
Proof.
  assert (Hp : parse_args sample_sscanf ["--step"; "--delay=250"]%string
                          default_options
               = ([], inr (mkOptions true 250))) by (vm_compute; reflexivity).
  split; [exact Hp |].
  exact (help_exits_with_0 sample_sscanf true "pbpu"%string _ ["x"%string] _
                           sample_fopen Hp).
Defined.

(** A missing program file: [pbpu --step prog.bin] takes "--step" for the
    file name, and the process is killed in the load block. *)
Example missing_file_is_killed :
  main_start sample_sscanf false ["pbpu"; "--step"; "prog.bin"]%string sample_fopen
  = ([], Faulted)
  /\ main_start sample_sscanf true ["pbpu"; "--step"; "prog.bin"]%string sample_fopen
     = ([Printf "Program not found!"], Faulted).
Proof. split; vm_compute; reflexivity. Qed.

Lemma main_start_exit_status_witness :
  main_start sample_sscanf false ["pbpu"]%string sample_fopen
  = ([Printf "No program passed in!"], Exited 1)
  /\ ((1 = 0 /\ [Printf "No program passed in!"] = usage
       /\ "--help"%string ∈ tail ["pbpu"]%string)
      \/ (1 = 1
          /\ exists d, last [Printf "No program passed in!"] = Some (Printf d)
             /\ d ∈ ["Invalid delay value!"; "Delay can't be negative!";
                     "No program passed in!"; "Program is empty!"]%string)).
Proof.
  assert (Hm : main_start sample_sscanf false ["pbpu"]%string sample_fopen
               = ([Printf "No program passed in!"], Exited 1))
    by (vm_compute; reflexivity).
  split; [exact Hm | exact (main_start_exit_status _ _ _ _ _ _ Hm)].
Defined.

(** ** The memory panel *)

Lemma hex_digits_nibble v : 0 <= v < 16 -> hex_digits v = 1.
Proof.
  intros Hv. unfold hex_digits.
  destruct (Z.eq_dec v 0) as [-> | Hnz]; [reflexivity |].
  assert (Hlog : Z.log2 v < 4) by (apply Z.log2_lt_pow2; [lia | cbn; lia]).
  pose proof (Z.log2_nonneg v) as Hpos.
  rewrite Z.div_small by lia. reflexivity.
Qed.

Lemma hex_digits_byte v : 0 <= v < 256 -> hex_digits v <= 2.
Proof.
  intros Hv. unfold hex_digits.
  destruct (Z.eq_dec v 0) as [-> | Hnz]; [vm_compute; discriminate |].
  assert (Hlog : Z.log2 v < 8) by (apply Z.log2_lt_pow2; [lia | cbn; lia]).
  pose proof (Z.log2_nonneg v) as Hpos.
  assert (Z.log2 v / 4 < 2) by (apply Z.div_lt_upper_bound; lia).
  lia.
Qed.

(** The cells of a row stand two columns apart. *)
Lemma InitMemory_cells_lookup ram y addr c0 n x (k : nat) :
  0 <= c0 -> addr + c0 + n <= max_bytes -> Z.of_nat k < n ->
  InitMemory_cells ram y addr (seqZ c0 n) x !! k
  = Some (mkCell y (x + 2 * Z.of_nat k) (ReadNibble ram (u8 addr))).
Proof.
  revert c0 n x. induction k as [| k IH]; intros c0 n x Hc Hn Hk;
    rewrite seqZ_cons by lia; cbn [InitMemory_cells];
    (destruct (Z.geb_spec (addr + c0) max_bytes); [lia |]).
  - cbn. do 2 f_equal. lia.
  - cbn [lookup list_lookup]. rewrite IH by lia.
    unfold cell_width.
    rewrite hex_digits_nibble by apply ReadNibble_range.
    do 2 f_equal. lia.
Qed.

Lemma InitMemory_rows_lookup ram r0 n (k : nat) :
  0 <= r0 -> (r0 + Z.of_nat k) * bytes_per_row < max_bytes -> Z.of_nat k < n ->
  InitMemory_rows ram (seqZ r0 n) !! k
  = Some (InitMemory_cells ram (r0 + Z.of_nat k + 2)
            ((r0 + Z.of_nat k) * bytes_per_row) (seqZ 0 bytes_per_row)
            (1 + label_width ((r0 + Z.of_nat k) * bytes_per_row))).
Proof.
  unfold bytes_per_row, max_bytes.
  revert r0 n. induction k as [| k IH]; intros r0 n Hr Hmax Hk;
    rewrite seqZ_cons by lia; cbn [InitMemory_rows];
    unfold bytes_per_row, max_bytes;
    (destruct (Z.geb_spec (r0 * 16) 0x100); [lia |]).
  - cbn [lookup list_lookup]. rewrite Z.add_0_r. reflexivity.
  - cbn [lookup list_lookup]. rewrite IH by lia.
    replace (Z.succ r0 + Z.of_nat k) with (r0 + Z.of_nat (S k)) by lia.
    reflexivity.
Qed.

(** X27. The memory panel is a regular grid, and [UpdateMemory] writes into it:
    when the window has a row for the nibble at [locPtr], the place where
    [UpdateMemory] prints is the place of cell [locPtr mod 16] in row
    [locPtr / 16] of the dump that [InitMemory] drew, under the column
    label [locPtr mod 16].  What [InitMemory] printed there is the nibble
    at the start of that row; [UpdateMemory] prints the nibble at
    [locPtr]. *)
Theorem UpdateMemory_hits_its_cell (h : Z) (m : Machine) :
  is_u8 (locPtr m) -> locPtr m / 16 < h - 2 ->
  exists cells c,
    InitMemory h (ram m) !! Z.to_nat (locPtr m / 16) = Some cells
    /\ cells !! Z.to_nat (locPtr m mod 16) = Some c
    /\ cell_y c = cell_y (UpdateMemory m)
    /\ cell_x c = cell_x (UpdateMemory m)
    /\ cell_val c = ReadNibble (ram m) (16 * (locPtr m / 16))
    /\ cell_val (UpdateMemory m) = ReadNibble (ram m) (locPtr m)
    /\ InitMemory_header !! Z.to_nat (locPtr m mod 16)
       = Some (mkCell 1 (cell_x (UpdateMemory m)) (locPtr m mod 16)).
Proof.
  unfold is_u8. intros Hloc Hrow.
  pose proof (Z.div_mod (locPtr m) 16 ltac:(lia)) as Hdm.
  pose proof (Z.mod_pos_bound (locPtr m) 16 ltac:(lia)) as Hmod.
  assert (Hq : 0 <= locPtr m / 16 < 16)
    by (split; [apply Z.div_pos | apply Z.div_lt_upper_bound]; lia).
  eexists. eexists. split; [| split].
  - unfold InitMemory. apply InitMemory_rows_lookup;
      unfold bytes_per_row, max_bytes; lia.
  - apply InitMemory_cells_lookup; unfold bytes_per_row, max_bytes; lia.
  - cbn [cell_y cell_x cell_val UpdateMemory]. unfold bytes_per_row.
    rewrite !Z2Nat.id by lia. rewrite Z.add_0_l.
    assert (Hlabel : label_width (locPtr m / 16 * 16) = 4).
    { unfold label_width.
      pose proof (hex_digits_byte (locPtr m / 16 * 16) ltac:(lia)). lia. }
    rewrite Hlabel, u8_id by (unfold is_u8; lia).
    repeat split; try lia; [f_equal; lia |].
    unfold InitMemory_header, bytes_per_row.
    rewrite list_lookup_fmap, lookup_seqZ_lt by lia.
    cbn [fmap option_fmap option_map]. rewrite Z2Nat.id by lia.
    rewrite Z.add_0_l. reflexivity.
Qed.

Lemma UpdateMemory_hits_its_cell_witness :
  is_u8 (locPtr (run 4 (boot prog_halves)))
  /\ locPtr (run 4 (boot prog_halves)) / 16 < 24 - 2
  /\ cell_y (UpdateMemory (run 4 (boot prog_halves))) = 11
  /\ cell_x (UpdateMemory (run 4 (boot prog_halves))) = 29
  /\ exists cells c,
       InitMemory 24 (ram (run 4 (boot prog_halves))) !! 9%nat = Some cells
       /\ cells !! 12%nat = Some c
       /\ cell_y c = 11 /\ cell_x c = 29.
Proof.
  assert (Hu : is_u8 (locPtr (run 4 (boot prog_halves))))
    by (apply is_u8b_sound; vm_compute; reflexivity).
  assert (Hr : locPtr (run 4 (boot prog_halves)) / 16 < 24 - 2)
    by (vm_compute; reflexivity).
  destruct (UpdateMemory_hits_its_cell 24 _ Hu Hr)
    as [cells [c [Hcells [Hc [Hy [Hx _]]]]]].
  split; [exact Hu | split; [exact Hr |]].
  split; [vm_compute; reflexivity | split; [vm_compute; reflexivity |]].
  exists cells, c. split; [exact Hcells | split; [exact Hc | split]].
  - rewrite Hy. vm_compute. reflexivity.
  - rewrite Hx. vm_compute. reflexivity.
Defined.

(** X28. After a ZTR step the driver loop has [ramDirty] set, and what
    [UpdateMemory] then prints, at the place of the nibble [locPtr], is the
    low four bits of [regZ] that the step stored. *)
Theorem UpdateMemory_after_ZTR (m : Machine) :
  wf m -> fetched m = Some OP_ZTR ->
  ramDirty (SimStep m) = true
  /\ UpdateMemory (SimStep m)
     = mkCell (2 + locPtr m / 16) (5 + (locPtr m mod 16) * 2)
              (low_nibble (regZ m)).
Proof.
  intros Hwf Hop.
  pose proof (ZTR_nibble_written m Hwf Hop) as Hnib.
  assert (Hl : locPtr (SimStep m) = locPtr m) by (step_with Hop; reflexivity).
  split; [step_with Hop; reflexivity |].
  unfold UpdateMemory. rewrite Hl, Hnib. reflexivity.
Qed.

Lemma UpdateMemory_after_ZTR_witness :
  wf (run 2 (boot prog_store_load))
  /\ fetched (run 2 (boot prog_store_load)) = Some OP_ZTR
  /\ UpdateMemory (SimStep (run 2 (boot prog_store_load))) = mkCell 2 9 0xB.
Proof.
  assert (Hwf : wf (run 2 (boot prog_store_load)))
    by (apply run_wf, boot_wf; repeat constructor; unfold is_u8; cbn; lia).
  assert (Hop : fetched (run 2 (boot prog_store_load)) = Some OP_ZTR)
    by (vm_compute; reflexivity).
  split; [exact Hwf | split; [exact Hop |]].
  rewrite (proj2 (UpdateMemory_after_ZTR _ Hwf Hop)). vm_compute. reflexivity.
Defined.
